(** * UsageParser: a shallow embedding of the usage-record parser

    The repository holds two variants of one JavaScript class [UsageParser]:
    - [src/usage_parser.js], driven by a table of parsing methods, and
    - [src/unnamed/part_000], a variant that dispatches by [switch].

    The file has three layers: [JS], the part of the ECMAScript semantics the
    two classes rely on (Numbers as IEEE binary64 values, strings, regular
    expressions, coercions); [UsageParser] and [Part000], the two classes; and
    the properties of the specification. *)

From Stdlib Require Import ZArith List String Ascii Bool Lia.
From Stdlib Require Import Floats.SpecFloat.
Import ListNotations.

Set Warnings "-register-all".

Open Scope string_scope.
Open Scope Z_scope.

(* ================================================================== *)
(** * ECMAScript values                                                *)
(* ================================================================== *)

Module JS.

(** ** Numbers

    A JavaScript Number is an IEEE 754 binary64 value. [spec_float] is the
    Standard Library's model of such values: signed zeros, signed infinities,
    one NaN, and finite values [(-1)^s * m * 2^e]. *)

Definition prec : Z := 53.
Definition emax : Z := 1024.

Definition num : Type := spec_float.

Definition nan : num := S754_nan.
Definition pos_zero : num := S754_zero false.
Definition neg_zero : num := S754_zero true.
Definition infinity (neg : bool) : num := S754_infinity neg.

Definition is_nan (x : num) : bool :=
  match x with S754_nan => true | _ => false end.

(** The Number value for a mathematical integer: round to nearest, ties to
    even. *)
Definition Z2num (z : Z) : num := binary_normalize prec emax z 0 false.

(** The Number value for the positive rational [p / q], with sign [neg]. *)
Definition Q2num (neg : bool) (p q : positive) : num :=
  let '(m, e, l) := SFdiv_core_binary prec emax (Zpos p) 0 (Zpos q) 0 in
  binary_round_aux prec emax neg m e l.

(** The Number value for [(-1)^neg * m * 10^e], as StringToNumber needs it.
    A zero mantissa keeps its sign. *)
Definition dec2num (neg : bool) (m : Z) (e : Z) : num :=
  match m with
  | Zpos p =>
      if 0 <=? e
      then binary_normalize prec emax (cond_Zopp neg (Zpos p * 10 ^ e)) 0 false
      else Q2num neg p (Z.to_pos (10 ^ (- e)))
  | _ => S754_zero neg
  end.

(** The mathematical integer a Number denotes, when it denotes one. *)
Definition num2Z (x : num) : option Z :=
  match x with
  | S754_zero _ => Some 0
  | S754_finite s m e =>
      if 0 <=? e then Some (cond_Zopp s (Zpos m * 2 ^ e))
      else if Zpos m mod 2 ^ (- e) =? 0
           then Some (cond_Zopp s (Zpos m / 2 ^ (- e)))
           else None
  | _ => None
  end.


(** Structural equality; on values produced by rounding (which are in
    canonical form) it identifies exactly the same Number. *)
Definition num_eqb (x y : num) : bool :=
  match x, y with
  | S754_zero a, S754_zero b => Bool.eqb a b
  | S754_infinity a, S754_infinity b => Bool.eqb a b
  | S754_nan, S754_nan => true
  | S754_finite a m e, S754_finite b m' e' =>
      Bool.eqb a b && Pos.eqb m m' && Z.eqb e e'
  | _, _ => false
  end.

(** The [==] / [===] comparison of two Numbers: NaN differs from everything,
    the two zeros are equal. *)
Definition num_equal (x y : num) : bool := SFeqb x y.

(** ** Strings

    A JavaScript string is a sequence of UTF-16 code units. The embedding
    uses [string]: every [ascii] stands for the code unit of the same number,
    so the strings covered are those whose code units are below 256. *)

Definition str_length (s : string) : Z := Z.of_nat (String.length s).

Fixpoint drop (n : nat) (s : string) : string :=
  match n, s with
  | S n', String _ s' => drop n' s'
  | _, _ => s
  end.

Fixpoint take (n : nat) (s : string) : string :=
  match n, s with
  | S n', String c s' => String c (take n' s')
  | _, _ => EmptyString
  end.

(** The code units from index [from] up to, not including, index [to]. *)
Definition code_units (s : string) (from to : Z) : string :=
  take (Z.to_nat (to - from)) (drop (Z.to_nat from) s).

(** [s.substring(start, end)] *)
Definition substring (s : string) (start end_ : Z) : string :=
  let len := str_length s in
  let finalStart := Z.min (Z.max start 0) len in
  let finalEnd := Z.min (Z.max end_ 0) len in
  code_units s (Z.min finalStart finalEnd) (Z.max finalStart finalEnd).

(** [s.substr(start, length)]; [length] is [None] when the argument is
    omitted. *)
Definition substr (s : string) (start : Z) (length : option Z) : string :=
  let size := str_length s in
  let intStart :=
    if start <? 0 then Z.max (size + start) 0 else Z.min start size in
  let intLength :=
    match length with
    | None => size
    | Some l => Z.min (Z.max l 0) size
    end in
  let intEnd := Z.min (intStart + intLength) size in
  code_units s intStart intEnd.

(** [s.slice(start)] *)
Definition slice (s : string) (start : Z) : string :=
  let len := str_length s in
  let from := if start <? 0 then Z.max (len + start) 0 else Z.min start len in
  code_units s from (from + Z.max (len - from) 0).

(** [s.indexOf(pat)]: the first index at which [pat] occurs, or -1. *)
Fixpoint indexOf_from (s pat : string) (i : Z) : Z :=
  if String.prefix pat s then i
  else match s with
       | EmptyString => -1
       | String _ s' => indexOf_from s' pat (i + 1)
       end.

Definition indexOf (s pat : string) : Z := indexOf_from s pat 0.

(** [s.split(sep)] for a separator [sep] of one code unit. *)
Fixpoint split (s : string) (sep : ascii) : list string :=
  match s with
  | EmptyString => [EmptyString]
  | String c s' =>
      if Ascii.eqb c sep then EmptyString :: split s' sep
      else match split s' sep with
           | t :: ts => String c t :: ts
           | [] => [String c EmptyString]
           end
  end.

(** StrWhiteSpaceChar, restricted to the code units below 256: TAB, LF, VT,
    FF, CR, SP and NBSP. *)
Definition is_white (c : ascii) : bool :=
  let n := N_of_ascii c in
  ((9 <=? n) && (n <=? 13) || (n =? 32) || (n =? 160))%N.

Fixpoint trim_left (s : string) : string :=
  match s with
  | String c s' => if is_white c then trim_left s' else s
  | EmptyString => EmptyString
  end.

Fixpoint trim_right (s : string) : string :=
  match s with
  | EmptyString => EmptyString
  | String c s' =>
      match trim_right s' with
      | EmptyString => if is_white c then EmptyString else String c EmptyString
      | t => String c t
      end
  end.

Definition trim (s : string) : string := trim_right (trim_left s).

(** The value of a digit in radix up to 36: [0-9], then [a-z] or [A-Z]. *)
Definition alnum_val (c : ascii) : option Z :=
  let n := Z.of_N (N_of_ascii c) in
  if (48 <=? n) && (n <=? 57) then Some (n - 48)
  else if (97 <=? n) && (n <=? 122) then Some (n - 87)
  else if (65 <=? n) && (n <=? 90) then Some (n - 55)
  else None.

Definition digit_in (radix : Z) (c : ascii) : option Z :=
  match alnum_val c with
  | Some d => if d <? radix then Some d else None
  | None => None
  end.

(** Reads the longest prefix of radix-[radix] digits: the value read (on top
    of [acc]), the number of digits read (on top of [cnt]) and the rest. *)
Fixpoint span_digits (radix : Z) (s : string) (acc cnt : Z) : Z * Z * string :=
  match s with
  | String c s' =>
      match digit_in radix c with
      | Some d => span_digits radix s' (acc * radix + d) (cnt + 1)
      | None => (acc, cnt, s)
      end
  | EmptyString => (acc, cnt, s)
  end.

Definition strip_sign (s : string) : bool * string :=
  match s with
  | String c s' =>
      if Ascii.eqb c "-" then (true, s')
      else if Ascii.eqb c "+" then (false, s')
      else (false, s)
  | EmptyString => (false, s)
  end.

(** The text after a prefix [0x] or [0X] (or [0o], [0b], ...), if [s]
    starts with one. *)
Definition has_prefix_ci (lower upper : ascii) (s : string) : option string :=
  match s with
  | String z (String c s') =>
      if Ascii.eqb z "0" && (Ascii.eqb c lower || Ascii.eqb c upper)
      then Some s' else None
  | _ => None
  end.

(** NonDecimalIntegerLiteral: the body after [0x], [0o] or [0b] must be one
    or more digits of the radix and nothing else. *)
Definition nondecimal (radix : Z) (body : string) : option num :=
  match span_digits radix body 0 0 with
  | (v, cnt, EmptyString) => if 0 <? cnt then Some (Z2num v) else None
  | _ => None
  end.

(** ExponentPart, optional: [e] or [E], an optional sign, one or more
    digits, then the end of the literal. *)
Definition exponent_part (s : string) : option Z :=
  match s with
  | EmptyString => Some 0
  | String c s' =>
      if Ascii.eqb c "e" || Ascii.eqb c "E" then
        let '(neg, s'') := strip_sign s' in
        match span_digits 10 s'' 0 0 with
        | (v, cnt, EmptyString) =>
            if 0 <? cnt then Some (cond_Zopp neg v) else None
        | _ => None
        end
      else None
  end.

(** StrUnsignedDecimalLiteral other than [Infinity]. *)
Definition unsigned_decimal (neg : bool) (s : string) : num :=
  let '(v1, n1, r1) := span_digits 10 s 0 0 in
  let integer_only :=
    if 0 <? n1 then
      match exponent_part r1 with
      | Some e => dec2num neg v1 e
      | None => nan
      end
    else nan in
  match r1 with
  | String c r1' =>
      if Ascii.eqb c "." then
        let '(v2, n2, r2) := span_digits 10 r1' v1 0 in
        if 0 <? n1 + n2 then
          match exponent_part r2 with
          | Some e => dec2num neg v2 (e - n2)
          | None => nan
          end
        else nan
      else integer_only
  | EmptyString => integer_only
  end.

(** StringToNumber: the Number a string converts to, NaN when the string is
    not a StringNumericLiteral. *)
Definition StringToNumber (s : string) : num :=
  let text := trim s in
  match text with
  | EmptyString => pos_zero
  | _ =>
      let nondec :=
        match has_prefix_ci "x" "X" text with
        | Some body => nondecimal 16 body
        | None =>
            match has_prefix_ci "o" "O" text with
            | Some body => nondecimal 8 body
            | None =>
                match has_prefix_ci "b" "B" text with
                | Some body => nondecimal 2 body
                | None => None
                end
            end
        end in
      match nondec with
      | Some n => n
      | None =>
          let '(neg, body) := strip_sign text in
          if String.eqb body "Infinity" then infinity neg
          else unsigned_decimal neg body
      end
  end.

(** [parseInt(s, radix)] for a string [s] and a radix that is already an
    integer in the int32 range. *)
Definition parseInt (s : string) (radix : Z) : num :=
  let '(neg, body) := strip_sign (trim_left s) in
  if negb (radix =? 0) && ((radix <? 2) || (36 <? radix)) then nan
  else
    let stripPrefix := (radix =? 0) || (radix =? 16) in
    let R := if radix =? 0 then 10 else radix in
    let '(R, body) :=
      match (if stripPrefix then has_prefix_ci "x" "X" body else None) with
      | Some body' => (16, body')
      | None => (R, body)
      end in
    let '(v, cnt, _) := span_digits R body 0 0 in
    if cnt =? 0 then nan
    else if v =? 0 then S754_zero neg
    else Z2num (cond_Zopp neg v).

(** ** Number to string

    Number::toString in radix 10. For a finite non-zero value it looks for
    the shortest digit string [s] (of [k] digits) and the exponent [n] such
    that [s * 10^(n-k)] converts back to the same Number, and lays the
    digits out as ECMAScript prescribes. *)

Definition digit_char (d : Z) : ascii := ascii_of_N (Z.to_N (48 + d)).

Fixpoint dec_digits (fuel : nat) (n : Z) (acc : string) : string :=
  match fuel with
  | O => acc
  | S f =>
      let acc' := String (digit_char (n mod 10)) acc in
      if n / 10 =? 0 then acc' else dec_digits f (n / 10) acc'
  end.

(** The decimal digits of a non-negative integer. *)
Definition dec_of_Z (n : Z) : string :=
  dec_digits (S (Z.to_nat (Z.log2 n))) n EmptyString.

Fixpoint zeros (n : nat) : string :=
  match n with
  | O => EmptyString
  | S n' => String "0" (zeros n')
  end.

(** Smallest [j], counted from the given one, with [num * 10^j >= den]. *)
Fixpoint scale_up (fuel : nat) (num den j : Z) : Z :=
  match fuel with
  | O => j
  | S f => if den <=? num then j else scale_up f (num * 10) den (j + 1)
  end.

(** The [n] with [10^(n-1) <= num/den < 10^n]. *)
Definition magnitude (num den : Z) : Z :=
  if den <=? num then str_length (dec_of_Z (num / den))
  else 1 - scale_up 400 num den 0.

(** The [k]-digit candidates next to [num/den], kept when they convert back
    to [x]; of two that do, the closer one, the even one on a tie. *)
Definition candidate (x : num) (num den n0 k : Z) : option (Z * Z) :=
  let sh := k - n0 in
  let snum := if 0 <=? sh then num * 10 ^ sh else num in
  let sden := if 0 <=? sh then den else den * 10 ^ (- sh) in
  let lo := snum / sden in
  let hi := lo + 1 in
  let ok_lo := num_eqb (dec2num false lo (- sh)) x in
  let ok_hi := num_eqb (dec2num false hi (- sh)) x in
  let pick (s : Z) :=
    if s =? 10 ^ k then Some (10 ^ (k - 1), n0 + 1) else Some (s, n0) in
  if ok_lo && ok_hi then
    match 2 * snum ?= (lo + hi) * sden with
    | Lt => pick lo
    | Gt => pick hi
    | Eq => pick (if Z.even lo then lo else hi)
    end
  else if ok_lo then pick lo
  else if ok_hi then pick hi
  else None.

Fixpoint shortest (fuel : nat) (x : num) (num den n0 k : Z) : Z * Z :=
  match fuel with
  | O => (num / den, n0)
  | S f =>
      match candidate x num den n0 k with
      | Some r => r
      | None => shortest f x num den n0 (k + 1)
      end
  end.

Definition layout (ds : string) (n : Z) : string :=
  let k := str_length ds in
  if (k <=? n) && (n <=? 21) then ds ++ zeros (Z.to_nat (n - k))
  else if (0 <? n) && (n <=? 21) then
    take (Z.to_nat n) ds ++ "." ++ drop (Z.to_nat n) ds
  else if (-6 <? n) && (n <=? 0) then "0." ++ zeros (Z.to_nat (- n)) ++ ds
  else
    let e := n - 1 in
    let es := (if e <? 0 then "-" else "+") ++ dec_of_Z (Z.abs e) in
    if k =? 1 then ds ++ "e" ++ es
    else take 1 ds ++ "." ++ drop 1 ds ++ "e" ++ es.

Definition NumberToString (x : num) : string :=
  match x with
  | S754_nan => "NaN"
  | S754_zero _ => "0"
  | S754_infinity s => if s then "-Infinity" else "Infinity"
  | S754_finite s m e =>
      let sign := if s then "-" else EmptyString in
      match binary_round prec emax false m e with
      | S754_finite _ m' e' =>
          let num := if 0 <=? e' then Zpos m' * 2 ^ e' else Zpos m' in
          let den := if 0 <=? e' then 1 else 2 ^ (- e') in
          let '(digits, n) :=
            shortest 17 (S754_finite false m' e') num den (magnitude num den) 1 in
          sign ++ layout (dec_of_Z digits) n
      | S754_zero _ => "0"
      | S754_infinity _ => sign ++ "Infinity"
      | S754_nan => "NaN"
      end
  end.

(** ** Regular expressions

    The patterns of the program use character classes, sequence,
    alternation, [?], bounded repetition [{n}], [\b], [^] and [$]. A match
    state is the code unit before the current position and the text after
    it; [run] lists every state a match of the pattern can end in. *)

Inductive regex : Type :=
  | Empty
  | Chars (p : ascii -> bool)
  | Seq (r1 r2 : regex)
  | Alt (r1 r2 : regex)
  | Opt (r : regex)
  | Times (n : nat) (r : regex)
  | WordBoundary
  | LineStart
  | LineEnd.

Definition in_range (lo hi : ascii) (c : ascii) : bool :=
  ((N_of_ascii lo <=? N_of_ascii c) && (N_of_ascii c <=? N_of_ascii hi))%N.

Definition is_word_char (c : ascii) : bool :=
  in_range "a" "z" c || in_range "A" "Z" c || in_range "0" "9" c
  || Ascii.eqb c "_".

Definition state : Type := option ascii * string.

Definition word_before (st : state) : bool :=
  match fst st with Some c => is_word_char c | None => false end.

Definition word_after (st : state) : bool :=
  match snd st with String c _ => is_word_char c | EmptyString => false end.

Fixpoint run (r : regex) (st : state) : list state :=
  match r with
  | Empty => [st]
  | Chars p =>
      match snd st with
      | String c s' => if p c then [(Some c, s')] else []
      | EmptyString => []
      end
  | Seq r1 r2 => flat_map (run r2) (run r1 st)
  | Alt r1 r2 => (run r1 st ++ run r2 st)%list
  | Opt r1 => (run r1 st ++ [st])%list
  | Times n r1 =>
      (fix iter (n : nat) (sts : list state) : list state :=
         match n with
         | O => sts
         | S n' => iter n' (flat_map (run r1) sts)
         end) n [st]
  | WordBoundary => if xorb (word_before st) (word_after st) then [st] else []
  | LineStart => match fst st with None => [st] | Some _ => [] end
  | LineEnd => match snd st with EmptyString => [st] | String _ _ => [] end
  end.

Definition matches_at (r : regex) (st : state) : bool :=
  match run r st with
  | [] => false
  | _ :: _ => true
  end.

Fixpoint test_from (r : regex) (prev : option ascii) (s : string) : bool :=
  matches_at r (prev, s)
  || match s with
     | String c s' => test_from r (Some c) s'
     | EmptyString => false
     end.

(** [r.test(s)] for a pattern without flags: is there a match anywhere in
    [s]? *)
Definition test (r : regex) (s : string) : bool := test_from r None s.

(** ** Values and coercions *)

Inductive value : Type :=
  | VUndefined
  | VNull
  | VBool (b : bool)
  | VNum (n : num)
  | VStr (s : string)
  | VArr (elems : list value).

Definition typeof (v : value) : string :=
  match v with
  | VUndefined => "undefined"
  | VNull => "object"
  | VBool _ => "boolean"
  | VNum _ => "number"
  | VStr _ => "string"
  | VArr _ => "object"
  end.

Definition ToBoolean (v : value) : bool :=
  match v with
  | VUndefined | VNull => false
  | VBool b => b
  | VNum (S754_zero _) | VNum S754_nan => false
  | VNum _ => true
  | VStr EmptyString => false
  | VStr _ => true
  | VArr _ => true
  end.

(** ToString; an array converts as [join(",")] does, with [undefined] and
    [null] elements giving the empty string. *)
Fixpoint ToString (v : value) : string :=
  match v with
  | VUndefined => "undefined"
  | VNull => "null"
  | VBool b => if b then "true" else "false"
  | VNum n => NumberToString n
  | VStr s => s
  | VArr elems =>
      (fix join (l : list value) : string :=
         let elem (x : value) :=
           match x with
           | VUndefined | VNull => EmptyString
           | _ => ToString x
           end in
         match l with
         | [] => EmptyString
         | [x] => elem x
         | x :: l' => elem x ++ "," ++ join l'
         end) elems
  end.

Definition ToNumber (v : value) : num :=
  match v with
  | VUndefined => nan
  | VNull => pos_zero
  | VBool b => if b then Z2num 1 else pos_zero
  | VNum n => n
  | VStr s => StringToNumber s
  | VArr _ => StringToNumber (ToString v)
  end.

(** The global [isNaN(v)] and the conversion [Number(v)]. *)
Definition isNaN (v : value) : bool := is_nan (ToNumber v).
Definition Number (v : value) : num := ToNumber v.

(** [v == null]: true of [null] and [undefined] only. *)
Definition is_nullish (v : value) : bool :=
  match v with
  | VUndefined | VNull => true
  | _ => false
  end.

(** [b == s] for a boolean and a string: both sides convert to Numbers. *)
Definition loose_eq_bool_string (b : bool) (s : string) : bool :=
  num_equal (ToNumber (VBool b)) (ToNumber (VStr s)).

(** [Array.isArray(v)] *)
Definition isArray (v : value) : bool :=
  match v with
  | VArr _ => true
  | _ => false
  end.

(** Strict equality with a string, as [Array.prototype.indexOf] compares. *)
Definition is_string (s : string) (v : value) : bool :=
  match v with
  | VStr s' => String.eqb s s'
  | _ => false
  end.

Fixpoint array_indexOf_from (l : list value) (s : string) (i : Z) : Z :=
  match l with
  | [] => -1
  | x :: l' => if is_string s x then i else array_indexOf_from l' s (i + 1)
  end.

(** Element [i] of an array of strings, [undefined] past its end: what
    indexing and array destructuring read. *)
Definition element (l : list string) (i : nat) : value :=
  match nth_error l i with
  | Some s => VStr s
  | None => VUndefined
  end.

(** ** Completions: a call returns a value or throws *)

Inductive exn : Type :=
  | TypeError.

Inductive completion (A : Type) : Type :=
  | Return (a : A)
  | Throw (e : exn).

Arguments Return {A} a.
Arguments Throw {A} e.

Definition bind {A B : Type} (c : completion A) (k : A -> completion B)
  : completion B :=
  match c with
  | Return a => k a
  | Throw e => Throw e
  end.

End JS.

Import JS.

(* ================================================================== *)
(** * What the two variants share                                      *)
(* ================================================================== *)

(** The object [#formatOutput] builds. Every field holds a JavaScript value:
    a Number or a string, or [null] when the field is absent. *)
Record UsageRecord : Type := {
  id : value;
  dmcc : value;
  mnc : value;
  bytes_used : value;
  cellid : value;
  ip : value
}.

(** What [parse] puts in a slot: a record, or [None] for [null]. *)
Definition slot : Type := option UsageRecord.

Definition lit (c : ascii) : regex := Chars (Ascii.eqb c).
Definition rng (lo hi : ascii) : regex := Chars (in_range lo hi).

Definition lower_hex (c : ascii) : bool :=
  in_range "0" "9" c || in_range "a" "f" c.

(** [/^[0-9a-f]{24}$/] *)
Definition hex_pattern : regex :=
  Seq LineStart (Seq (Times 24 (Chars lower_hex)) LineEnd).

(** [25[0-5]], [2[0-4][0-9]] and [[01]?[0-9][0-9]?] *)
Definition oct_25x : regex := Seq (lit "2") (Seq (lit "5") (rng "0" "5")).
Definition oct_2xx : regex := Seq (lit "2") (Seq (rng "0" "4") (rng "0" "9")).
Definition oct_xxx : regex :=
  Seq (Opt (rng "0" "1")) (Seq (rng "0" "9") (Opt (rng "0" "9"))).

(** [(\b25[0-5]|\b2[0-4][0-9]|\b[01]?[0-9][0-9]?)], the first group *)
Definition first_octet : regex :=
  Alt (Seq WordBoundary oct_25x)
    (Alt (Seq WordBoundary oct_2xx) (Seq WordBoundary oct_xxx)).

(** [(\.(25[0-5]|2[0-4][0-9]|[01]?[0-9][0-9]?))], the repeated group *)
Definition dot_octet : regex :=
  Seq (lit ".") (Alt oct_25x (Alt oct_2xx oct_xxx)).

(** [/(\b25[0-5]|\b2[0-4][0-9]|\b[01]?[0-9][0-9]?)(\.(25[0-5]|2[0-4][0-9]|[01]?[0-9][0-9]?)){3}/] *)
Definition ip_pattern : regex := Seq first_octet (Times 3 dot_octet).

(** [#formatOutput(id, mnc, bytes_used, dmcc, cellid, ip)]; the two files
    define it with the same body. An argument the caller leaves out is
    [undefined]. *)
Definition formatOutput (id mnc bytes_used dmcc cellid ip : value)
  : UsageRecord :=
  let isValidIp :=
    if is_nullish ip then false else test ip_pattern (ToString ip) in
  {| id := if isNaN id then VNull else VNum (Number id);
     dmcc := if String.eqb (typeof dmcc) "string" then dmcc else VNull;
     mnc := if isNaN mnc then VNull else VNum (Number mnc);
     bytes_used := if isNaN bytes_used then VNull else VNum (Number bytes_used);
     cellid := if isNaN cellid then VNull else VNum (Number cellid);
     ip := if isValidIp then ip else VNull |}.

(** The guard both variants open with, [(!typeof input) == `string`]: the
    negation applies to the string [typeof] returns, and the resulting
    boolean is then compared with ["string"]. *)
Definition not_typeof_is_string (input : value) : bool :=
  loose_eq_bool_string (negb (ToBoolean (VStr (typeof input)))) "string".

(** The Hex layout, read from a string of nibbles (the same statements in
    both files). *)
Definition hex_fields (id : value) (nibbles : string) : UsageRecord :=
  let mnc := parseInt (substring nibbles 0 4) 16 in
  let bytes_used := parseInt (substring nibbles 4 8) 16 in
  let cellid := parseInt (substring nibbles 8 16) 16 in
  let ip :=
    ((NumberToString (parseInt (substring nibbles 16 18) 16)
      ++ ("." ++ NumberToString (parseInt (substring nibbles 18 20) 16)))
     ++ ("." ++ NumberToString (parseInt (substring nibbles 20 22) 16)))
    ++ ("." ++ NumberToString (parseInt (substring nibbles 22 24) 16)) in
  formatOutput id (VNum mnc) (VNum bytes_used) VUndefined (VNum cellid)
    (VStr ip).

(* ================================================================== *)
(** * [src/usage_parser.js]                                            *)
(* ================================================================== *)

Module UsageParser.

(** An entry of [#parsingMethods]. *)
Record method : Type := {
  name : string;
  applyIf : string -> bool;
  isValid : string -> bool;
  process : string -> string -> UsageRecord
}.

Definition HEX : method :=
  {| name := "HEX";
     applyIf := fun id => String.eqb (slice id (-1)) "6";
     isValid := fun data => test hex_pattern data;
     process := fun id data => hex_fields (VStr id) data |}.

Definition EXTENDED : method :=
  {| name := "EXTENDED";
     applyIf := fun id => String.eqb (slice id (-1)) "4";
     isValid := fun data => Z.of_nat (List.length (split data ",")) =? 4;
     process := fun id data =>
       let tokens := split data "," in
       let dmcc := element tokens 0 in
       let mnc := element tokens 1 in
       let bytes_used := element tokens 2 in
       let cellid := element tokens 3 in
       formatOutput (VStr id) mnc bytes_used dmcc cellid VUndefined |}.

Definition DEFAULT : method :=
  {| name := "DEFAULT";
     applyIf := fun _ => true;
     isValid := fun data => negb (isNaN (VStr data));
     process := fun id data =>
       formatOutput (VStr id) VUndefined (VStr data) VUndefined VUndefined
         VUndefined |}.

Definition parsingMethods : list method := [HEX; EXTENDED; DEFAULT].

(** The loop of [#getFormatter] over the methods from index [x] on; [None]
    is the [null] it returns when no method applies. *)
Fixpoint getFormatter_loop (methods : list method) (id : string)
  : option method :=
  match methods with
  | [] => None
  | formatter :: rest =>
      if applyIf formatter id then Some formatter
      else getFormatter_loop rest id
  end.

Definition getFormatter (id : string) : option method :=
  getFormatter_loop parsingMethods id.

(** [#parseSingle(input)]. The [console.log] call is a side channel and is
    left out. Only strings have both [indexOf] and [substr]; an array has
    [indexOf] alone; on anything else the call [input.indexOf] throws. *)
Definition parseSingle (input : value) : completion slot :=
  if not_typeof_is_string input then Return None
  else
    match input with
    | VStr text =>
        let firstCommaIx := indexOf text "," in
        if firstCommaIx <? 0 then Return None
        else
          let id := substr text 0 (Some firstCommaIx) in
          let data := substr text (firstCommaIx + 1) None in
          match getFormatter id with
          | None => Throw TypeError
          | Some formatter =>
              if negb (isValid formatter data) then Return None
              else Return (Some (process formatter id data))
          end
    | VArr elems =>
        if array_indexOf_from elems "," 0 <? 0 then Return None
        else Throw TypeError
    | _ => Throw TypeError
    end.

(** [input.forEach(string => output.push(parseSingle(string)))] *)
Fixpoint forEach_push (input : list value) (output : list slot)
  : completion (list slot) :=
  match input with
  | [] => Return output
  | string :: rest =>
      bind (parseSingle string)
        (fun r => forEach_push rest (output ++ [r])%list)
  end.

Definition parse (input : value) : completion (list slot) :=
  match input with
  | VArr elems => forEach_push elems []
  | _ => bind (parseSingle input) (fun r => Return [r])
  end.

End UsageParser.

(* ================================================================== *)
(** * [src/unnamed/part_000]                                           *)
(* ================================================================== *)

Module Part000.

Definition PROCESS_HEX : string := "6".
Definition PROCESS_EXTENDED : string := "4".

(** The [response] object of [#validateInput]; [tokens] starts as [null]. *)
Record response : Type := {
  isValid : bool;
  format : string;
  tokens : option (list string)
}.

Definition validateInput (input : value) : completion response :=
  let response := {| isValid := false; format := EmptyString; tokens := None |} in
  if not_typeof_is_string input then Return response
  else
    match input with
    | VStr text =>
        let tokens := split text "," in
        if Z.of_nat (List.length tokens) <? 2
        then Return {| isValid := false; format := EmptyString; tokens := Some tokens |}
        else
          match element tokens 0 with
          | VStr first =>
              Return {| isValid := true;
                        format := slice first (-1);
                        tokens := Some tokens |}
          | _ => Throw TypeError
          end
    | _ => Throw TypeError
    end.

Definition parseBasic (tokens : list string) : UsageRecord :=
  let id := element tokens 0 in
  let bytes_used := element tokens 1 in
  formatOutput id VUndefined bytes_used VUndefined VUndefined VUndefined.

Definition parseHex (tokens : list string) : slot :=
  let id := element tokens 0 in
  let valid := test hex_pattern (ToString (element tokens 1)) in
  if negb valid then None
  else
    match element tokens 1 with
    | VStr nibbles => Some (hex_fields id nibbles)
    | _ => None
    end.

Definition parseExtended (tokens : list string) : UsageRecord :=
  let id := element tokens 0 in
  let dmcc := element tokens 1 in
  let mnc := element tokens 2 in
  let bytes_used := element tokens 3 in
  let cellid := element tokens 4 in
  formatOutput id mnc bytes_used dmcc cellid VUndefined.

Definition parseSingle (input : value) : completion slot :=
  bind (validateInput input) (fun formattedInput =>
    if negb (isValid formattedInput) then Return None
    else
      match tokens formattedInput with
      | None => Throw TypeError
      | Some tokens =>
          if String.eqb (format formattedInput) PROCESS_EXTENDED
          then Return (Some (parseExtended tokens))
          else if String.eqb (format formattedInput) PROCESS_HEX
          then Return (parseHex tokens)
          else Return (Some (parseBasic tokens))
      end).

Fixpoint forEach_push (input : list value) (output : list slot)
  : completion (list slot) :=
  match input with
  | [] => Return output
  | string :: rest =>
      bind (parseSingle string)
        (fun r => forEach_push rest (output ++ [r])%list)
  end.

Definition parse (input : value) : completion (list slot) :=
  match input with
  | VArr elems => forEach_push elems []
  | _ => bind (parseSingle input) (fun r => Return [r])
  end.

End Part000.

(* ================================================================== *)
(** * Vocabulary of the specification                                  *)
(* ================================================================== *)

(** Does the code unit [c] occur in [s]? *)
Fixpoint contains (c : ascii) (s : string) : bool :=
  match s with
  | EmptyString => false
  | String a s' => Ascii.eqb a c || contains c s'
  end.

(** Are all code units of [s] in the class [p]? *)
Fixpoint all_chars (p : ascii -> bool) (s : string) : bool :=
  match s with
  | EmptyString => true
  | String a s' => p a && all_chars p s'
  end.

(** The last code unit of [s]: the discriminant, when [s] is an ID. *)
Fixpoint last_char (s : string) : option ascii :=
  match s with
  | EmptyString => None
  | String a EmptyString => Some a
  | String _ s' => last_char s'
  end.

Definition is_digit (c : ascii) : bool := in_range "0" "9" c.

Definition digit_value (c : ascii) : Z :=
  match alnum_val c with Some d => d | None => 0 end.

(** The value of a digit string in a radix, most significant digit first. *)
Fixpoint horner (radix : Z) (acc : Z) (s : string) : Z :=
  match s with
  | EmptyString => acc
  | String c s' => horner radix (acc * radix + digit_value c) s'
  end.

Definition base10 (s : string) : Z := horner 10 0 s.
Definition base16 (s : string) : Z := horner 16 0 s.

(** A decimal octet: one to three digits, value at most 255. *)
Definition octet_string (s : string) : bool :=
  (1 <=? String.length s)%nat && (String.length s <=? 3)%nat
  && all_chars is_digit s && (base10 s <=? 255).

(** Four octets joined by dots. *)
Definition dotted_quad (s : string) : Prop :=
  exists a b c d,
    octet_string a = true /\ octet_string b = true /\
    octet_string c = true /\ octet_string d = true /\
    s = a ++ "." ++ b ++ "." ++ c ++ "." ++ d.

(** What is checked of each octet value [0..255]: its Number prints as its
    decimal digits, and those digits are an octet string of that value. *)
Definition octet_check (n : Z) : bool :=
  (NumberToString (Z2num n) =? dec_of_Z n)%string
  && octet_string (dec_of_Z n)
  && (base10 (dec_of_Z n) =? n).

Definition octets : list Z := map Z.of_nat (seq 0 256).

Definition hex_char (d : Z) : ascii :=
  if d <? 10 then ascii_of_N (Z.to_N (48 + d)) else ascii_of_N (Z.to_N (87 + d)).

Fixpoint to_hex (width : nat) (z : Z) (acc : string) : string :=
  match width with
  | O => acc
  | S w => to_hex w (z / 16) (String (hex_char (z mod 16)) acc)
  end.

(** [z] in lower-case hex, zero-padded to exactly [width] nibbles; there is
    no such writing when [z] is negative or needs more than [width]
    nibbles. *)
Definition hex_of (width : nat) (z : Z) : option string :=
  if (0 <=? z) && (z <? 16 ^ Z.of_nat width)
  then Some (to_hex width z EmptyString)
  else None.

(** Concatenation of two writings, when both exist. *)
Definition cat_opt (a b : option string) : option string :=
  match a, b with
  | Some x, Some y => Some (x ++ y)
  | _, _ => None
  end.

(** The line [<id>,<payload>]. *)
Definition line (id payload : string) : string := id ++ "," ++ payload.

(** The integer a field holds, when it holds one. *)
Definition int_value (v : value) : option Z :=
  match v with
  | VNum n => num2Z n
  | _ => None
  end.

(** What the normalizer makes of a numeric candidate. *)
Definition normalized_number (raw : value) : value :=
  if is_nan (ToNumber raw) then VNull else VNum (ToNumber raw).

(** The three record layouts and the discriminant that selects one: the
    last character of the ID. *)
Inductive layout_kind : Type := Hex | Extended | Default.

Definition layout_of (id : string) : layout_kind :=
  match last_char id with
  | Some c =>
      if Ascii.eqb c "6" then Hex
      else if Ascii.eqb c "4" then Extended
      else Default
  | None => Default
  end.

(** Well-formed payloads: 24 lower-case hex digits; exactly four
    comma-separated tokens; a single token that is a number. *)
Definition well_formed_payload (k : layout_kind) (payload : string) : bool :=
  match k with
  | Hex => (String.length payload =? 24)%nat && all_chars lower_hex payload
  | Extended => (List.length (split payload ",") =? 4)%nat
  | Default =>
      negb (contains "," payload) && negb (is_nan (StringToNumber payload))
  end.

Definition well_formed (text : string) : Prop :=
  exists id payload,
    text = line id payload /\ contains "," id = false /\
    well_formed_payload (layout_of id) payload = true.

(** The dotted quad of four octet values. *)
Definition quad (a b c d : Z) : string :=
  dec_of_Z a ++ "." ++ dec_of_Z b ++ "." ++ dec_of_Z c ++ "." ++ dec_of_Z d.

(** Re-encoding of a Hex record: the three integers as 4, 4 and 8 nibbles,
    then the four octets of the dotted quad as 2 nibbles each. *)
Definition encode_int (width : nat) (v : value) : option string :=
  match int_value v with
  | Some z => hex_of width z
  | None => None
  end.

(** One octet of the dotted quad, read in base 10 and written as two
    nibbles. *)
Definition encode_octet (t : string) : option string :=
  if octet_string t then hex_of 2 (base10 t) else None.

Definition encode_ip (v : value) : option string :=
  match v with
  | VStr s =>
      match split s "." with
      | [a; b; c; d] =>
          cat_opt (encode_octet a)
            (cat_opt (encode_octet b)
               (cat_opt (encode_octet c) (encode_octet d)))
      | _ => None
      end
  | _ => None
  end.

Definition encode (r : UsageRecord) : option string :=
  cat_opt (encode_int 4 (mnc r))
    (cat_opt (encode_int 4 (bytes_used r))
       (cat_opt (encode_int 8 (cellid r)) (encode_ip (ip r)))).


Definition text_ok (v : value) : Prop :=
  v = VNull \/ exists s, v = VStr s.

Definition ip_ok (v : value) : Prop :=
  v = VNull \/ exists s, v = VStr s /\ dotted_quad s.



(** The [ip] candidate the Hex handlers build from a payload: the octets of
    the nibble pairs 16:18, 18:20, 20:22 and 22:24, in base 10, joined by
    dots. *)
Definition hex_ip (nibbles : string) : string :=
  quad (base16 (code_units nibbles 16 18)) (base16 (code_units nibbles 18 20))
       (base16 (code_units nibbles 20 22)) (base16 (code_units nibbles 22 24)).

(** The [ip] candidates the handlers pass to [#formatOutput]: none (the
    Extended and Default handlers leave the argument out), or the one the
    Hex handlers build from a payload that passed the Hex validator. *)
Inductive passed_ip : value -> Prop :=
  | passed_no_ip : passed_ip VUndefined
  | passed_hex_ip (nibbles : string) :
      well_formed_payload Hex nibbles = true ->
      passed_ip (VStr (hex_ip nibbles)).


(** The record of the line ["123,500"]. *)
Definition record_123_500 : UsageRecord :=
  {| id := VNum (Z2num 123); dmcc := VNull; mnc := VNull;
     bytes_used := VNum (Z2num 500); cellid := VNull; ip := VNull |}.

(** The canonical mantissa and exponent of a positive integer of at most 53
    bits. *)
Definition normal_form (p : positive) : positive * Z :=
  let d := Zpos (digits2_pos p) in
  match d - 53 with
  | Zneg k => (Pos.iter xO p k, d - 53)
  | _ => (p, 0)
  end.


(** How many times the code unit [c] occurs in [s]. *)
Fixpoint count_char (c : ascii) (s : string) : nat :=
  match s with
  | EmptyString => O
  | String a s' => if Ascii.eqb a c then S (count_char c s') else count_char c s'
  end.

(** Is the value a string? *)
Definition is_text (v : value) : bool :=
  match v with
  | VStr _ => true
  | _ => false
  end.

(** The elements [#parseSingle] of [usage_parser.js] gets through without
    throwing: strings, and arrays none of whose elements is the string
    [","]. *)
Definition tolerated (v : value) : bool :=
  match v with
  | VStr _ => true
  | VArr elems => negb (existsb (is_string ",") elems)
  | _ => false
  end.

(** A field that holds a Number other than NaN, or is absent. *)
Definition number_or_null (v : value) : Prop :=
  v = VNull \/ exists n, v = VNum n /\ is_nan n = false.

(** The first payload token: the text up to the first comma. *)
Definition first_token (payload : string) : string :=
  nth 0 (split payload ",") EmptyString.

(** A record as the documentation of [parse] types it: numeric fields hold
    a Number other than NaN or are absent, [dmcc] holds a string or is
    absent, [ip] holds a dotted quad or is absent. *)
Definition well_typed (r : UsageRecord) : Prop :=
  number_or_null (id r) /\ number_or_null (mnc r) /\
  number_or_null (bytes_used r) /\ number_or_null (cellid r) /\
  text_ok (dmcc r) /\ ip_ok (ip r).

(* ================================================================== *)
(** * Facts about the ECMAScript layer                                 *)
(* ================================================================== *)

Section NumberFacts.

Lemma digits2_pos_iter_xO (k p : positive) :
  digits2_pos (Pos.iter xO p k) = (digits2_pos p + k)%positive.
Proof.
  induction k as [|k IH] using Pos.peano_ind.
  - simpl. lia.
  - rewrite Pos.iter_succ. simpl. rewrite IH. lia.
Qed.

Lemma Zpos_iter_xO (k p : positive) :
  Zpos (Pos.iter xO p k) = Zpos p * 2 ^ Zpos k.
Proof.
  induction k as [|k IH] using Pos.peano_ind.
  - simpl. lia.
  - rewrite Pos.iter_succ, Pos2Z.inj_xO, IH, Pos2Z.inj_succ, Z.pow_succ_r by lia. lia.
Qed.

(** A mantissa of exactly 53 bits with an exponent in range is already
    rounded. *)
Lemma binary_round_aux_canonical (s : bool) (m : positive) (e : Z) :
  Zpos (digits2_pos m) = 53 -> -1074 <= e <= 971 ->
  binary_round_aux prec emax s (Zpos m) e loc_Exact = S754_finite s m e.
Proof.
  intros Hd He.
  unfold binary_round_aux, shr_fexp, fexp, SpecFloat.emin, prec, emax.
  cbn [shr_record_of_loc Zdigits2].
  rewrite Hd.
  replace (Z.max (53 + e - 53) (3 - 1024 - 53) - e) with 0 by lia.
  cbn [shr shr_m loc_of_shr_record round_nearest_even Zdigits2].
  rewrite Hd.
  replace (Z.max (53 + e - 53) (3 - 1024 - 53) - e) with 0 by lia.
  cbn [shr shr_m].
  replace (e <=? 1024 - 53) with true by (symmetry; apply Z.leb_le; lia).
  reflexivity.
Qed.

Lemma binary_round_small (s : bool) (p : positive) :
  Zpos (digits2_pos p) <= 53 ->
  binary_round prec emax s p 0 =
  S754_finite s (fst (normal_form p)) (snd (normal_form p)).
Proof.
  intros Hd.
  unfold binary_round, shl_align, normal_form, fexp, SpecFloat.emin, prec, emax.
  replace (Z.max (Zpos (digits2_pos p) + 0 - 53) (3 - 1024 - 53) - 0)
    with (Zpos (digits2_pos p) - 53) by lia.
  destruct (Zpos (digits2_pos p) - 53) as [|k|k] eqn:E; try lia.
  - cbn [fst snd]. apply binary_round_aux_canonical; lia.
  - cbn [fst snd]. 
    replace (Z.max (Zpos (digits2_pos p) + 0 - 53) (3 - 1024 - 53))
      with (Z.neg k) by lia.
    apply binary_round_aux_canonical.
    + rewrite digits2_pos_iter_xO. lia.
    + lia.
Qed.

Lemma digits2_pos_bound (p : positive) :
  Zpos p < 2 ^ Zpos (digits2_pos p).
Proof.
  induction p as [p IH|p IH|]; cbn [digits2_pos].
  - rewrite Pos2Z.inj_succ, Z.pow_succ_r by lia. lia.
  - rewrite Pos2Z.inj_succ, Z.pow_succ_r by lia. lia.
  - reflexivity.
Qed.

Lemma digits2_pos_small (p : positive) (n : Z) :
  0 <= n -> Zpos p < 2 ^ n -> Zpos (digits2_pos p) <= n.
Proof.
  revert n. induction p as [p IH|p IH|]; intros n Hn Hp; cbn [digits2_pos].
  - destruct (Z.eq_dec n 0) as [->|]. { simpl in Hp. lia. }
    replace n with (Z.succ (n - 1)) in Hp by lia.
    rewrite Z.pow_succ_r in Hp by lia.
    specialize (IH (n - 1)). lia.
  - destruct (Z.eq_dec n 0) as [->|]. { simpl in Hp. lia. }
    replace n with (Z.succ (n - 1)) in Hp by lia.
    rewrite Z.pow_succ_r in Hp by lia.
    specialize (IH (n - 1)). lia.
  - destruct (Z.eq_dec n 0) as [->|]. { simpl in Hp. lia. } lia.
Qed.

Lemma num2Z_normal_form (s : bool) (p : positive) :
  Zpos (digits2_pos p) <= 53 ->
  num2Z (S754_finite s (fst (normal_form p)) (snd (normal_form p)))
  = Some (cond_Zopp s (Zpos p)).
Proof.
  intros Hd. unfold normal_form.
  destruct (Zpos (digits2_pos p) - 53) as [|k|k] eqn:E; try lia; cbn [fst snd num2Z].
  - cbn. rewrite Pos.mul_1_r. reflexivity.
  - cbn [Z.leb Z.compare Z.opp]. rewrite Zpos_iter_xO.
    rewrite Z.mod_mul by lia. cbn [Z.eqb].
    rewrite Z.div_mul by lia. reflexivity.
Qed.

(** Integers below [2^53] in magnitude are Numbers, exactly. *)
Lemma num2Z_Z2num (z : Z) : Z.abs z < 2 ^ 53 -> num2Z (Z2num z) = Some z.
Proof.
  intros Hz. destruct z as [|p|p]; [reflexivity| |].
  - unfold Z2num, binary_normalize.
    assert (Hd : Zpos (digits2_pos p) <= 53) by (apply digits2_pos_small; lia).
    rewrite binary_round_small by exact Hd.
    apply (num2Z_normal_form false p Hd).
  - unfold Z2num, binary_normalize.
    assert (Hd : Zpos (digits2_pos p) <= 53) by (apply digits2_pos_small; lia).
    rewrite binary_round_small by exact Hd.
    apply (num2Z_normal_form true p Hd).
Qed.

Lemma shr_1_nonneg (mrs : shr_record) :
  0 <= shr_m mrs -> 0 <= shr_m (shr_1 mrs).
Proof.
  destruct mrs as [m r t]. cbn [shr_m]. intros Hm.
  destruct m as [|[q|q|]|q]; cbn; lia.
Qed.

Lemma iter_shr_1_nonneg (n : positive) (mrs : shr_record) :
  0 <= shr_m mrs -> 0 <= shr_m (iter_pos shr_1 n mrs).
Proof.
  revert mrs. induction n as [n IH|n IH|]; intros mrs Hm; cbn [iter_pos].
  - apply IH, IH, shr_1_nonneg, Hm.
  - apply IH, IH, Hm.
  - apply shr_1_nonneg, Hm.
Qed.

Lemma shr_fexp_nonneg (m e : Z) (l : location) :
  0 <= m -> 0 <= shr_m (fst (shr_fexp prec emax m e l)).
Proof.
  intros Hm. unfold shr_fexp, shr.
  assert (H0 : 0 <= shr_m (shr_record_of_loc m l))
    by (destruct l as [|[]]; exact Hm).
  destruct (fexp prec emax (Zdigits2 m + e) - e) as [|n|n]; cbn [fst];
    try exact H0.
  apply iter_shr_1_nonneg, H0.
Qed.

Lemma round_nearest_even_nonneg (m : Z) (l : location) :
  0 <= m -> 0 <= round_nearest_even m l.
Proof.
  intros Hm. destruct l as [|[]]; cbn [round_nearest_even]; try lia.
  destruct (Z.even m); lia.
Qed.

Lemma binary_round_aux_not_nan (s : bool) (m e : Z) (l : location) :
  0 <= m -> is_nan (binary_round_aux prec emax s m e l) = false.
Proof.
  intros Hm. unfold binary_round_aux.
  pose proof (shr_fexp_nonneg m e l Hm) as H1.
  destruct (shr_fexp prec emax m e l) as [mrs1 e1]. cbn [fst] in H1.
  pose proof (shr_fexp_nonneg _ e1 loc_Exact
                (round_nearest_even_nonneg _ (loc_of_shr_record mrs1) H1)) as H2.
  destruct (shr_fexp prec emax _ e1 loc_Exact) as [mrs2 e2]. cbn [fst] in H2.
  destruct (shr_m mrs2) as [|q|q]; try reflexivity; try lia.
  destruct (e2 <=? emax - prec); reflexivity.
Qed.

(** The conversion of an integer never gives NaN. *)
Lemma Z2num_not_nan (z : Z) : is_nan (Z2num z) = false.
Proof.
  unfold Z2num, binary_normalize, binary_round.
  destruct z as [|p|p]; [reflexivity| |];
    destruct (shl_align p 0 _) as [mz ez];
    apply binary_round_aux_not_nan; lia.
Qed.

End NumberFacts.

Section StringFacts.

Lemma length_append (a b : string) :
  String.length (a ++ b) = (String.length a + String.length b)%nat.
Proof. induction a as [|c a IH]; cbn; [reflexivity|now rewrite IH]. Qed.

Lemma append_assoc (a b c : string) : a ++ (b ++ c) = (a ++ b) ++ c.
Proof. induction a as [|x a IH]; cbn; [reflexivity|now rewrite IH]. Qed.

Lemma take_append (a b : string) : take (String.length a) (a ++ b) = a.
Proof. induction a as [|c a IH]; cbn; [now destruct b|now rewrite IH]. Qed.

Lemma drop_append (a b : string) : drop (String.length a) (a ++ b) = b.
Proof. induction a as [|c a IH]; cbn; [now destruct b|exact IH]. Qed.

Lemma take_all (s : string) : take (String.length s) s = s.
Proof. induction s as [|c s IH]; cbn; [reflexivity|now rewrite IH]. Qed.

End StringFacts.

(** Searching for and splitting at a separator of one code unit. *)
Section Separator.

Variable sep : ascii.

Lemma prefix_sep (s : string) :
  String.prefix (String sep EmptyString) s =
  match s with String c _ => Ascii.eqb c sep | EmptyString => false end.
Proof.
  destruct s as [|c s]; [reflexivity|]. cbn [String.prefix].
  destruct (ascii_dec sep c) as [E|Hne].
  - subst c. rewrite Ascii.eqb_refl. now destruct s.
  - symmetry. apply Ascii.eqb_neq. congruence.
Qed.

Lemma indexOf_from_absent (s : string) (i : Z) :
  contains sep s = false -> indexOf_from s (String sep EmptyString) i = -1.
Proof.
  revert i. induction s as [|c s IH]; intros i H; [reflexivity|].
  cbn [contains] in H. apply orb_false_iff in H as [Hc Hs].
  cbn [indexOf_from]. rewrite prefix_sep, Hc. apply IH, Hs.
Qed.

Lemma indexOf_from_first (a rest : string) (i : Z) :
  contains sep a = false ->
  indexOf_from (a ++ String sep rest) (String sep EmptyString) i
  = i + str_length a.
Proof.
  revert i. induction a as [|c a IH]; intros i H.
  - cbn [append indexOf_from]. rewrite prefix_sep, Ascii.eqb_refl.
    unfold str_length. cbn [String.length]. lia.
  - cbn [contains] in H. apply orb_false_iff in H as [Hc Hs].
    cbn [append indexOf_from]. rewrite prefix_sep, Hc, IH by exact Hs.
    unfold str_length. cbn [String.length]. lia.
Qed.

(** A string that holds the separator splits at its first occurrence. *)
Lemma first_sep (s : string) :
  contains sep s = true ->
  exists a rest, s = a ++ String sep rest /\ contains sep a = false.
Proof.
  induction s as [|c s IH]; intros H; [discriminate|].
  cbn [contains] in H. destruct (Ascii.eqb c sep) eqn:Hc.
  - apply Ascii.eqb_eq in Hc as ->. exists EmptyString, s. split; reflexivity.
  - destruct (IH H) as (a & rest & -> & Ha).
    exists (String c a), rest. split; [reflexivity|].
    cbn [contains]. now rewrite Hc.
Qed.

Lemma substr_before (a rest : string) :
  substr (a ++ String sep rest) 0 (Some (str_length a)) = a.
Proof.
  unfold substr, code_units, str_length.
  rewrite length_append. cbn [String.length Z.ltb Z.compare].
  replace (Z.to_nat (Z.min 0 _)) with 0%nat by lia.
  cbn [drop].
  match goal with
  | |- take ?n _ = _ => replace n with (String.length a) by lia
  end.
  apply take_append.
Qed.

Lemma substr_after (a rest : string) :
  substr (a ++ String sep rest) (str_length a + 1) None = rest.
Proof.
  unfold substr, code_units, str_length.
  rewrite length_append. cbn [String.length].
  replace (Z.of_nat (String.length a) + 1 <? 0) with false
    by (symmetry; apply Z.ltb_ge; lia).
  match goal with
  | |- take ?n (drop ?k _) = _ =>
      replace n with (String.length rest) by lia;
      replace k with (String.length (a ++ String sep EmptyString))
        by (rewrite length_append; cbn [String.length]; lia)
  end.
  replace (a ++ String sep rest) with ((a ++ String sep EmptyString) ++ rest)
    by (now rewrite <- append_assoc).
  rewrite drop_append. apply take_all.
Qed.

Lemma split_absent (s : string) :
  contains sep s = false -> split s sep = [s].
Proof.
  induction s as [|c s IH]; intros H; [reflexivity|].
  cbn [contains] in H. apply orb_false_iff in H as [Hc Hs].
  cbn [split]. now rewrite Hc, IH.
Qed.

Lemma split_first (a rest : string) :
  contains sep a = false ->
  split (a ++ String sep rest) sep = a :: split rest sep.
Proof.
  induction a as [|c a IH]; intros H.
  - cbn [append split]. now rewrite Ascii.eqb_refl.
  - cbn [contains] in H. apply orb_false_iff in H as [Hc Hs].
    cbn [append split]. now rewrite Hc, IH.
Qed.

Lemma split_nonempty (s : string) :
  exists t ts, split s sep = t :: ts.
Proof.
  destruct s as [|c s]; cbn [split]; [eauto|].
  destruct (Ascii.eqb c sep); [eauto|]. destruct (split s sep); eauto.
Qed.

End Separator.

Section LastCharacter.

Lemma slice_last (s : string) :
  slice s (-1) =
  match last_char s with Some c => String c EmptyString | None => EmptyString end.
Proof.
  unfold slice, code_units, str_length. cbn [Z.ltb Z.compare].
  induction s as [|a s IH]; [reflexivity|].
  destruct s as [|b s]; [reflexivity|].
  cbn [last_char]. cbn [last_char] in IH. rewrite <- IH. clear IH.
  set (t := String b s).
  assert (Hl : (1 <= String.length t)%nat) by (subst t; cbn; lia).
  clearbody t. cbn [String.length].
  replace (Z.to_nat (Z.max (Z.of_nat (S (String.length t)) + -1) 0))
    with (S (Z.to_nat (Z.max (Z.of_nat (String.length t) + -1) 0))) by lia.
  cbn [drop]. f_equal. lia.
Qed.

Lemma last_char_snoc (s : string) (c : ascii) :
  last_char (s ++ String c EmptyString) = Some c.
Proof.
  induction s as [|a s IH]; [reflexivity|].
  cbn [append last_char]. rewrite IH.
  destruct (s ++ String c EmptyString) eqn:E; [now destruct s|reflexivity].
Qed.

End LastCharacter.

Section CharFacts.

Ltac by_bits c :=
  destruct c as [[] [] [] [] [] [] [] []]; try discriminate; vm_compute;
  intuition discriminate.

Lemma digit_not_special (c : ascii) :
  is_digit c = true ->
  is_white c = false /\ Ascii.eqb c "-" = false /\ Ascii.eqb c "+" = false /\
  Ascii.eqb c "." = false /\ Ascii.eqb c "," = false /\
  Ascii.eqb c "x" = false /\ Ascii.eqb c "X" = false /\
  Ascii.eqb c "o" = false /\ Ascii.eqb c "O" = false /\
  Ascii.eqb c "b" = false /\ Ascii.eqb c "B" = false /\
  Ascii.eqb c "I" = false.
Proof. by_bits c. Qed.

Lemma digit_in_10 (c : ascii) :
  is_digit c = true ->
  digit_in 10 c = Some (digit_value c) /\ 0 <= digit_value c < 10.
Proof. by_bits c. Qed.

Lemma lower_hex_not_special (c : ascii) :
  lower_hex c = true ->
  is_white c = false /\ Ascii.eqb c "-" = false /\ Ascii.eqb c "+" = false /\
  Ascii.eqb c "," = false /\
  Ascii.eqb c "x" = false /\ Ascii.eqb c "X" = false.
Proof. by_bits c. Qed.

Lemma digit_in_16 (c : ascii) :
  lower_hex c = true ->
  digit_in 16 c = Some (digit_value c) /\ 0 <= digit_value c < 16.
Proof. by_bits c. Qed.

End CharFacts.

Section ParseFacts.

Lemma span_digits_all (radix : Z) (p : ascii -> bool) :
  (forall c, p c = true -> digit_in radix c = Some (digit_value c)) ->
  forall s acc cnt, all_chars p s = true ->
  span_digits radix s acc cnt = (horner radix acc s, cnt + str_length s, EmptyString).
Proof.
  intros Hp. induction s as [|c s IH]; intros acc cnt H.
  - cbn. unfold str_length. cbn. now rewrite Z.add_0_r.
  - cbn [all_chars] in H. apply andb_true_iff in H as [Hc Hs].
    cbn [span_digits horner]. rewrite (Hp c Hc), IH by exact Hs.
    unfold str_length. cbn [String.length]. f_equal. f_equal. lia.
Qed.

Lemma trim_right_id (s : string) :
  all_chars (fun c => negb (is_white c)) s = true -> trim_right s = s.
Proof.
  induction s as [|c s IH]; intros H; [reflexivity|].
  cbn [all_chars] in H. apply andb_true_iff in H as [Hc Hs].
  cbn [trim_right]. rewrite IH by exact Hs.
  apply negb_true_iff in Hc. rewrite Hc. now destruct s.
Qed.

Lemma all_chars_impl (p q : ascii -> bool) (s : string) :
  (forall c, p c = true -> q c = true) ->
  all_chars p s = true -> all_chars q s = true.
Proof.
  intros Hpq. induction s as [|c s IH]; intros H; [reflexivity|].
  cbn [all_chars] in *. apply andb_true_iff in H as [Hc Hs].
  now rewrite (Hpq c Hc), IH.
Qed.

Lemma trim_id (p : ascii -> bool) (s : string) :
  (forall c, p c = true -> is_white c = false) ->
  all_chars p s = true -> trim s = s.
Proof.
  intros Hp H. unfold trim.
  assert (Hl : trim_left s = s).
  { destruct s as [|c s]; [reflexivity|]. cbn [all_chars] in H.
    apply andb_true_iff in H as [Hc _]. cbn [trim_left]. now rewrite (Hp c Hc). }
  rewrite Hl. apply trim_right_id.
  apply (all_chars_impl p); [|exact H].
  intros c Hc. now rewrite (Hp c Hc).
Qed.

Lemma horner_nonneg (radix : Z) (s : string) (acc : Z) :
  0 <= radix -> 0 <= acc ->
  (forall c, 0 <= digit_value c) -> 0 <= horner radix acc s.
Proof.
  intros Hr Ha Hd. revert acc Ha. induction s as [|c s IH]; intros acc Ha; cbn [horner].
  - exact Ha.
  - apply IH. apply Z.add_nonneg_nonneg; [|apply Hd].
    apply Z.mul_nonneg_nonneg; assumption.
Qed.

Lemma digit_value_nonneg (c : ascii) : 0 <= digit_value c.
Proof. destruct c as [[] [] [] [] [] [] [] []]; vm_compute; discriminate. Qed.

Lemma dec2num_integer (v : Z) : 0 <= v -> dec2num false v 0 = Z2num v.
Proof.
  intros Hv. unfold dec2num, Z2num. destruct v as [|p|p]; try lia; [reflexivity|].
  cbn [Z.leb Z.compare cond_Zopp]. now rewrite Z.pow_0_r, Z.mul_1_r.
Qed.

(** A non-empty string of decimal digits converts to the Number for its
    base-10 value. *)
Lemma StringToNumber_digits (s : string) :
  s <> EmptyString -> all_chars is_digit s = true ->
  StringToNumber s = Z2num (base10 s).
Proof.
  intros Hne H. unfold StringToNumber.
  rewrite (trim_id is_digit) by (try exact H; intros c Hc; apply digit_not_special, Hc).
  destruct s as [|c s]; [congruence|].
  pose proof H as H'. cbn [all_chars] in H'. apply andb_true_iff in H' as [Hc Hs].
  destruct (digit_not_special c Hc)
    as (_ & Hm & Hp & _ & _ & _ & _ & _ & _ & _ & _ & HI).
  assert (Hpre : forall l u, is_digit l = false -> is_digit u = false ->
                 has_prefix_ci l u (String c s) = None).
  { intros l u Hl Hu. unfold has_prefix_ci. destruct s as [|c2 s]; [reflexivity|].
    cbn [all_chars] in Hs. apply andb_true_iff in Hs as [Hc2 _].
    assert (E1 : Ascii.eqb c2 l = false)
      by (apply Ascii.eqb_neq; intros ->; congruence).
    assert (E2 : Ascii.eqb c2 u = false)
      by (apply Ascii.eqb_neq; intros ->; congruence).
    now rewrite E1, E2, andb_false_r. }
  rewrite !Hpre by reflexivity.
  unfold strip_sign. rewrite Hm, Hp.
  replace (String c s =? "Infinity")%string with false
    by (symmetry; cbn [String.eqb]; now rewrite HI).
  unfold unsigned_decimal.
  rewrite (span_digits_all 10 is_digit)
    by (try exact H; intros a Ha; apply digit_in_10, Ha).
  unfold str_length. cbn [String.length exponent_part].
  replace (0 <? 0 + Z.of_nat (S (String.length s))) with true
    by (symmetry; apply Z.ltb_lt; lia).
  apply dec2num_integer, horner_nonneg; try lia. apply digit_value_nonneg.
Qed.

(** [parseInt] of a non-empty string of lower-case hex digits, radix 16, is
    the Number for its base-16 value. *)
Lemma parseInt_hex (s : string) :
  s <> EmptyString -> all_chars lower_hex s = true ->
  parseInt s 16 = Z2num (base16 s).
Proof.
  intros Hne H. unfold parseInt.
  destruct s as [|c s]; [congruence|].
  pose proof H as H'. cbn [all_chars] in H'. apply andb_true_iff in H' as [Hc Hs].
  destruct (lower_hex_not_special c Hc) as (Hw & Hm & Hp & _ & _ & _).
  cbn [trim_left]. rewrite Hw. unfold strip_sign. rewrite Hm, Hp.
  cbn [Z.eqb negb andb orb Z.ltb Z.compare].
  assert (Hpre : has_prefix_ci "x" "X" (String c s) = None).
  { unfold has_prefix_ci. destruct s as [|c2 s]; [reflexivity|].
    cbn [all_chars] in Hs. apply andb_true_iff in Hs as [Hc2 _].
    destruct (lower_hex_not_special c2 Hc2) as (_ & _ & _ & _ & E1 & E2).
    now rewrite E1, E2, andb_false_r. }
  rewrite Hpre.
  cbn [Z.eqb Z.ltb Z.compare Pos.compare Pos.compare_cont Pos.eqb negb andb orb].
  rewrite (span_digits_all 16 lower_hex)
    by (try exact H; intros a Ha; apply digit_in_16, Ha).
  unfold str_length. cbn [String.length].
  replace (0 + Z.of_nat (S (String.length s)) =? 0) with false
    by (symmetry; apply Z.eqb_neq; lia).
  fold (base16 (String c s)).
  destruct (base16 (String c s) =? 0) eqn:E; [|reflexivity].
  apply Z.eqb_eq in E. now rewrite E.
Qed.

End ParseFacts.

Section RegexFacts.

Lemma run_seq_in (r1 r2 : regex) (st st1 st2 : state) :
  In st1 (run r1 st) -> In st2 (run r2 st1) -> In st2 (run (Seq r1 r2) st).
Proof. intros H1 H2. cbn [run]. apply in_flat_map. now exists st1. Qed.

Lemma run_times3_in (r : regex) (st st1 st2 st3 : state) :
  In st1 (run r st) -> In st2 (run r st1) -> In st3 (run r st2) ->
  In st3 (run (Times 3 r) st).
Proof.
  intros H1 H2 H3. cbn [run].
  apply in_flat_map. exists st2. split; [|exact H3].
  apply in_flat_map. exists st1. split; [|exact H2].
  apply in_flat_map. exists st. split; [now left|exact H1].
Qed.

Lemma matches_at_in (r : regex) (st st' : state) :
  In st' (run r st) -> matches_at r st = true.
Proof. unfold matches_at. now destruct (run r st). Qed.

Lemma test_of_matches_at (r : regex) (s : string) :
  matches_at r (None, s) = true -> test r s = true.
Proof. intros H. unfold test. destruct s; cbn [test_from]; now rewrite H. Qed.

Lemma digit_cases (c : ascii) :
  is_digit c = true ->
  c = "0"%char \/ c = "1"%char \/ c = "2"%char \/ c = "3"%char \/
  c = "4"%char \/ c = "5"%char \/ c = "6"%char \/ c = "7"%char \/
  c = "8"%char \/ c = "9"%char.
Proof.
  destruct c as [[] [] [] [] [] [] [] []]; try discriminate; intros _; tauto.
Qed.

Ltac digit_split H :=
  destruct (digit_cases _ H) as [->|[->|[->|[->|[->|[->|[->|[->|[->| ->]]]]]]]]].

Ltac find_state :=
  vm_compute; repeat (first [left; reflexivity | right]).

(** The shapes of an octet string, digit by digit. *)
Lemma octet_shapes (P : string -> Prop) :
  (forall c1, is_digit c1 = true -> P (String c1 EmptyString)) ->
  (forall c1 c2, is_digit c1 = true -> is_digit c2 = true ->
     P (String c1 (String c2 EmptyString))) ->
  (forall c1 c2 c3, is_digit c1 = true -> is_digit c2 = true ->
     is_digit c3 = true ->
     base10 (String c1 (String c2 (String c3 EmptyString))) <= 255 ->
     P (String c1 (String c2 (String c3 EmptyString)))) ->
  forall a, octet_string a = true -> P a.
Proof.
  intros P1 P2 P3 a H. unfold octet_string in H.
  apply andb_true_iff in H as [H Hv]. apply andb_true_iff in H as [H Hd].
  apply andb_true_iff in H as [Hl1 Hl3]. apply Z.leb_le in Hv.
  destruct a as [|c1 [|c2 [|c3 [|c4 a]]]]; try discriminate;
    cbn [all_chars] in Hd;
    repeat match goal with
           | H : _ && _ = true |- _ => apply andb_true_iff in H as [? H]
           end; auto.
Qed.

Lemma first_octet_in (a rest : string) :
  octet_string a = true ->
  In (last_char a, String "." rest)
     (run first_octet (None, a ++ String "." rest)).
Proof.
  intros H. revert a H. apply octet_shapes.
  - intros c1 H1. digit_split H1; find_state.
  - intros c1 c2 H1 H2. digit_split H1; digit_split H2; find_state.
  - intros c1 c2 c3 H1 H2 H3 Hv.
    digit_split H1; digit_split H2; digit_split H3;
      first [ exfalso; revert Hv; vm_compute; congruence | find_state ].
Qed.

Lemma dot_octet_mid_in (prev : option ascii) (b rest : string) :
  octet_string b = true ->
  In (last_char b, String "." rest)
     (run dot_octet (prev, String "." (b ++ String "." rest))).
Proof.
  intros H. revert b H. apply octet_shapes.
  - intros c1 H1. digit_split H1; find_state.
  - intros c1 c2 H1 H2. digit_split H1; digit_split H2; find_state.
  - intros c1 c2 c3 H1 H2 H3 Hv.
    digit_split H1; digit_split H2; digit_split H3;
      first [ exfalso; revert Hv; vm_compute; congruence | find_state ].
Qed.

Lemma dot_octet_end_in (prev : option ascii) (d : string) :
  octet_string d = true ->
  In (last_char d, EmptyString) (run dot_octet (prev, String "." d)).
Proof.
  intros H. revert d H. apply octet_shapes.
  - intros c1 H1. digit_split H1; find_state.
  - intros c1 c2 H1 H2. digit_split H1; digit_split H2; find_state.
  - intros c1 c2 c3 H1 H2 H3 Hv.
    digit_split H1; digit_split H2; digit_split H3;
      first [ exfalso; revert Hv; vm_compute; congruence | find_state ].
Qed.

(** Every dotted quad passes the IP pattern. *)
Lemma ip_pattern_dotted_quad (s : string) :
  dotted_quad s -> test ip_pattern s = true.
Proof.
  intros (a & b & c & d & Ha & Hb & Hc & Hd & ->).
  apply test_of_matches_at.
  apply (matches_at_in _ _ (last_char d, EmptyString)).
  unfold ip_pattern.
  eapply run_seq_in.
  - cbn [append]. apply first_octet_in, Ha.
  - eapply run_times3_in.
    + apply dot_octet_mid_in, Hb.
    + cbn [append]. apply dot_octet_mid_in, Hc.
    + cbn [append]. apply dot_octet_end_in, Hd.
Qed.

Lemma run_chars_exact (p : ascii -> bool) (s : string) (prev : option ascii) :
  s <> EmptyString -> all_chars p s = true ->
  run (Times (String.length s) (Chars p)) (prev, s) = [(last_char s, EmptyString)].
Proof.
  intros Hne H. cbn [run].
  revert prev Hne H. induction s as [|c s IH]; intros prev Hne H; [congruence|].
  cbn [all_chars] in H. apply andb_true_iff in H as [Hc Hs].
  cbn [String.length flat_map run snd]. rewrite Hc. cbn [app].
  destruct s as [|c2 s]; [reflexivity|].
  rewrite IH by (try exact Hs; congruence). reflexivity.
Qed.

(** The Hex validator accepts every string of 24 lower-case hex digits. *)
Lemma hex_pattern_accepts (s : string) :
  String.length s = 24%nat -> all_chars lower_hex s = true ->
  test hex_pattern s = true.
Proof.
  intros Hl H. apply test_of_matches_at.
  apply (matches_at_in _ _ (last_char s, EmptyString)).
  unfold hex_pattern.
  apply (run_seq_in _ _ _ (None, s)); [now left|].
  apply (run_seq_in _ _ _ (last_char s, EmptyString)); [|now left].
  rewrite <- Hl, run_chars_exact; [now left| |exact H].
  intros ->. discriminate.
Qed.

Lemma octets_checked : forallb octet_check octets = true.
Proof. vm_compute. reflexivity. Qed.

Lemma octet_checked (n : Z) : 0 <= n < 256 -> octet_check n = true.
Proof.
  intros Hn. pose proof octets_checked as H.
  rewrite forallb_forall in H. apply H.
  unfold octets. apply in_map_iff. exists (Z.to_nat n). split; [lia|].
  apply in_seq. lia.
Qed.

Lemma octet_render (n : Z) :
  0 <= n < 256 ->
  NumberToString (Z2num n) = dec_of_Z n /\
  octet_string (dec_of_Z n) = true /\ base10 (dec_of_Z n) = n.
Proof.
  intros Hn. pose proof (octet_checked n Hn) as H. unfold octet_check in H.
  apply andb_true_iff in H as [H H3]. apply andb_true_iff in H as [H1 H2].
  apply String.eqb_eq in H1. apply Z.eqb_eq in H3. auto.
Qed.

Lemma hex_char_digit_value (c : ascii) :
  lower_hex c = true -> hex_char (digit_value c) = c.
Proof. destruct c as [[] [] [] [] [] [] [] []]; try discriminate; reflexivity. Qed.

Lemma to_hex_horner (s : string) :
  all_chars lower_hex s = true ->
  forall (w : nat) (acc : Z) (tail : string), 0 <= acc ->
  to_hex (String.length s + w) (horner 16 acc s) tail =
  to_hex w acc (s ++ tail).
Proof.
  induction s as [|c s IH]; intros H w acc tail Ha; [reflexivity|].
  cbn [all_chars] in H. apply andb_true_iff in H as [Hc Hs].
  destruct (digit_in_16 c Hc) as [_ Hd].
  cbn [String.length horner Nat.add].
  replace (S (String.length s + w)) with (String.length s + S w)%nat by lia.
  rewrite IH by (try exact Hs; lia).
  cbn [to_hex append].
  replace ((acc * 16 + digit_value c) / 16) with acc
    by (apply Z.div_unique with (r := digit_value c); lia).
  replace ((acc * 16 + digit_value c) mod 16) with (digit_value c)
    by (apply Z.mod_unique with (q := acc); lia).
  now rewrite hex_char_digit_value.
Qed.

Lemma horner_bound (s : string) :
  all_chars lower_hex s = true ->
  forall acc, 0 <= acc ->
  0 <= horner 16 acc s < (acc + 1) * 16 ^ Z.of_nat (String.length s).
Proof.
  induction s as [|c s IH]; intros H acc Ha.
  - cbn. lia.
  - cbn [all_chars] in H. apply andb_true_iff in H as [Hc Hs].
    destruct (digit_in_16 c Hc) as [_ Hd].
    cbn [horner String.length]. rewrite Nat2Z.inj_succ, Z.pow_succ_r by lia.
    specialize (IH Hs (acc * 16 + digit_value c) ltac:(lia)).
    assert (0 < 16 ^ Z.of_nat (String.length s)) by (apply Z.pow_pos_nonneg; lia).
    nia.
Qed.

(** Writing the base-16 value of hex digits back, in as many nibbles,
    gives the digits. *)
Lemma hex_of_base16 (s : string) :
  all_chars lower_hex s = true ->
  hex_of (String.length s) (base16 s) = Some s.
Proof.
  intros H. unfold hex_of.
  pose proof (horner_bound s H 0 ltac:(lia)) as B. fold (base16 s) in B.
  replace (0 <=? base16 s) with true by (symmetry; apply Z.leb_le; lia).
  replace (base16 s <? 16 ^ Z.of_nat (String.length s)) with true
    by (symmetry; apply Z.ltb_lt; lia).
  cbn [andb]. f_equal. unfold base16.
  replace (String.length s) with (String.length s + 0)%nat by lia.
  rewrite to_hex_horner by (try exact H; lia).
  cbn [to_hex]. clear. induction s as [|c s IH]; cbn; [reflexivity|now rewrite IH].
Qed.

End RegexFacts.


(* ================================================================== *)
(** * Facts about the two parsers                                      *)
(* ================================================================== *)

Section ParserFacts.

Lemma guard_never_fires (input : value) : not_typeof_is_string input = false.
Proof. destruct input; vm_compute; reflexivity. Qed.

Lemma getFormatter_cases (id : string) :
  UsageParser.getFormatter id =
  if (slice id (-1) =? "6")%string then Some UsageParser.HEX
  else if (slice id (-1) =? "4")%string then Some UsageParser.EXTENDED
  else Some UsageParser.DEFAULT.
Proof. reflexivity. Qed.

Lemma usage_parseSingle_no_comma (text : string) :
  contains "," text = false ->
  UsageParser.parseSingle (VStr text) = Return None.
Proof.
  intros H. unfold UsageParser.parseSingle. rewrite guard_never_fires.
  unfold indexOf. now rewrite indexOf_from_absent.
Qed.

Lemma usage_parseSingle_line (id payload : string) :
  contains "," id = false ->
  UsageParser.parseSingle (VStr (line id payload)) =
  match UsageParser.getFormatter id with
  | None => Throw TypeError
  | Some formatter =>
      if negb (UsageParser.isValid formatter payload) then Return None
      else Return (Some (UsageParser.process formatter id payload))
  end.
Proof.
  intros H. unfold UsageParser.parseSingle, line. rewrite guard_never_fires.
  cbn [append]. unfold indexOf. rewrite indexOf_from_first by exact H.
  cbn [Z.add]. rewrite substr_before.
  replace (str_length id <? 0) with false
    by (symmetry; apply Z.ltb_ge; unfold str_length; lia).
  now rewrite substr_after.
Qed.

Lemma part000_parseSingle_no_comma (text : string) :
  contains "," text = false ->
  Part000.parseSingle (VStr text) = Return None.
Proof.
  intros H. unfold Part000.parseSingle, Part000.validateInput.
  rewrite guard_never_fires, split_absent by exact H. reflexivity.
Qed.

Lemma part000_parseSingle_line (id payload : string) :
  contains "," id = false ->
  Part000.parseSingle (VStr (line id payload)) =
  let tokens := id :: split payload "," in
  if (slice id (-1) =? Part000.PROCESS_EXTENDED)%string
  then Return (Some (Part000.parseExtended tokens))
  else if (slice id (-1) =? Part000.PROCESS_HEX)%string
  then Return (Part000.parseHex tokens)
  else Return (Some (Part000.parseBasic tokens)).
Proof.
  intros H. unfold Part000.parseSingle, Part000.validateInput, line.
  rewrite guard_never_fires. cbn [append]. rewrite split_first by exact H.
  assert (Hl : (1 <= List.length (split payload ","))%nat).
  { destruct payload as [|c p]; cbn [split List.length]; [lia|].
    destruct (Ascii.eqb c ","); [cbn; lia|]. destruct (split p ","); cbn; lia. }
  replace (Z.of_nat (List.length (id :: split payload ",")) <? 2) with false
    by (symmetry; apply Z.ltb_ge; cbn [List.length]; lia).
  reflexivity.
Qed.

(** On text, neither variant throws. *)
Lemma usage_parseSingle_text (text : string) :
  exists r, UsageParser.parseSingle (VStr text) = Return r.
Proof.
  destruct (contains "," text) eqn:E.
  - destruct (first_sep "," text E) as (id & payload & -> & Hid).
    change (id ++ String "," payload) with (line id payload).
    rewrite usage_parseSingle_line, getFormatter_cases by exact Hid.
    repeat match goal with
           | |- context [if ?b then _ else _] => destruct b
           end; eauto.
  - rewrite usage_parseSingle_no_comma by exact E. eauto.
Qed.

Lemma part000_parseSingle_text (text : string) :
  exists r, Part000.parseSingle (VStr text) = Return r.
Proof.
  destruct (contains "," text) eqn:E.
  - destruct (first_sep "," text E) as (id & payload & -> & Hid).
    change (id ++ String "," payload) with (line id payload).
    rewrite part000_parseSingle_line by exact Hid. cbv zeta.
    repeat match goal with
           | |- context [if ?b then _ else _] => destruct b
           end; eauto.
  - rewrite part000_parseSingle_no_comma by exact E. eauto.
Qed.



End ParserFacts.

Section LayoutFacts.

Lemma slice_last_is (id : string) (c : ascii) :
  (slice id (-1) =? String c EmptyString)%string =
  match last_char id with Some a => Ascii.eqb a c | None => false end.
Proof.
  rewrite slice_last. destruct (last_char id) as [a|]; [|reflexivity].
  cbn [String.eqb]. now destruct (Ascii.eqb a c).
Qed.

Lemma length_take (n : nat) (s : string) :
  String.length (take n s) = Nat.min n (String.length s).
Proof.
  revert s. induction n as [|n IH]; intros [|c s]; cbn; try reflexivity.
  now rewrite IH.
Qed.

Lemma length_drop (n : nat) (s : string) :
  String.length (drop n s) = (String.length s - n)%nat.
Proof.
  revert s. induction n as [|n IH]; intros [|c s]; cbn; try reflexivity.
  apply IH.
Qed.

Lemma all_chars_take (p : ascii -> bool) (n : nat) (s : string) :
  all_chars p s = true -> all_chars p (take n s) = true.
Proof.
  revert s. induction n as [|n IH]; intros [|c s] H; cbn; try reflexivity.
  cbn [all_chars] in H. apply andb_true_iff in H as [Hc Hs].
  now rewrite Hc, IH.
Qed.

Lemma all_chars_drop (p : ascii -> bool) (n : nat) (s : string) :
  all_chars p s = true -> all_chars p (drop n s) = true.
Proof.
  revert s. induction n as [|n IH]; intros [|c s] H; cbn; try assumption.
  cbn [all_chars] in H. apply andb_true_iff in H as [Hc Hs]. now apply IH.
Qed.

Lemma take_drop_app (n m : nat) (s : string) :
  take n s ++ take m (drop n s) = take (n + m) s.
Proof.
  revert s. induction n as [|n IH]; intros s; cbn.
  - reflexivity.
  - destruct s as [|c s]; [now destruct m|]. cbn. now rewrite IH.
Qed.

Lemma drop_drop (n m : nat) (s : string) : drop m (drop n s) = drop (n + m) s.
Proof.
  revert s. induction n as [|n IH]; intros s; cbn; [reflexivity|].
  destruct s as [|c s]; [now destruct m|]. apply IH.
Qed.

Lemma code_units_length (s : string) (a b : Z) :
  0 <= a <= b -> b <= str_length s ->
  String.length (code_units s a b) = Z.to_nat (b - a).
Proof.
  unfold code_units, str_length. intros Hab Hb.
  rewrite length_take, length_drop. lia.
Qed.

Lemma code_units_all (p : ascii -> bool) (s : string) (a b : Z) :
  all_chars p s = true -> all_chars p (code_units s a b) = true.
Proof. intros H. apply all_chars_take, all_chars_drop, H. Qed.

Lemma code_units_app (s : string) (a b c : Z) :
  0 <= a <= b -> b <= c ->
  code_units s a b ++ code_units s b c = code_units s a c.
Proof.
  unfold code_units. intros Hab Hbc.
  replace (Z.to_nat b) with (Z.to_nat a + Z.to_nat (b - a))%nat by lia.
  rewrite <- drop_drop, take_drop_app. f_equal. lia.
Qed.

Lemma code_units_whole (s : string) : code_units s 0 (str_length s) = s.
Proof.
  unfold code_units, str_length. cbn [Z.to_nat drop].
  rewrite Z.sub_0_r, Nat2Z.id. apply take_all.
Qed.

Lemma substring_within (s : string) (a b : Z) :
  0 <= a <= b -> b <= str_length s -> substring s a b = code_units s a b.
Proof. intros Hab Hb. unfold substring. f_equal; lia. Qed.

(** A slice of hex digits is read as its base-16 value. *)
Lemma parseInt_slice (s : string) (a b : Z) :
  all_chars lower_hex s = true -> 0 <= a < b -> b <= str_length s ->
  parseInt (substring s a b) 16 = Z2num (base16 (code_units s a b)).
Proof.
  intros H Hab Hb. rewrite substring_within by lia.
  apply parseInt_hex; [|apply code_units_all, H].
  intros E. apply (f_equal String.length) in E.
  rewrite code_units_length in E by lia. cbn in E. lia.
Qed.

Lemma base16_slice_bound (s : string) (a b : Z) :
  all_chars lower_hex s = true -> 0 <= a <= b -> b <= str_length s ->
  0 <= base16 (code_units s a b) < 16 ^ (b - a).
Proof.
  intros H Hab Hb.
  pose proof (horner_bound _ (code_units_all _ s a b H) 0 ltac:(lia)) as B.
  rewrite code_units_length in B by lia. fold (base16 (code_units s a b)) in B.
  rewrite Z2Nat.id in B by lia. lia.
Qed.

Lemma quad_dotted (a b c d : Z) :
  0 <= a < 256 -> 0 <= b < 256 -> 0 <= c < 256 -> 0 <= d < 256 ->
  dotted_quad (quad a b c d).
Proof.
  intros Ha Hb Hc Hd. exists (dec_of_Z a), (dec_of_Z b), (dec_of_Z c), (dec_of_Z d).
  repeat split; try reflexivity; now apply octet_render.
Qed.

(** The record of a well-formed Hex payload. *)
Lemma hex_fields_decode (idv : value) (payload : string) :
  String.length payload = 24%nat -> all_chars lower_hex payload = true ->
  hex_fields idv payload =
  {| id := normalized_number idv;
     dmcc := VNull;
     mnc := VNum (Z2num (base16 (code_units payload 0 4)));
     bytes_used := VNum (Z2num (base16 (code_units payload 4 8)));
     cellid := VNum (Z2num (base16 (code_units payload 8 16)));
     ip := VStr (quad (base16 (code_units payload 16 18))
                      (base16 (code_units payload 18 20))
                      (base16 (code_units payload 20 22))
                      (base16 (code_units payload 22 24))) |}.
Proof.
  intros Hl H.
  assert (Hlen : str_length payload = 24) by (unfold str_length; lia).
  unfold hex_fields.
  rewrite !parseInt_slice by (try exact H; lia).
  pose proof (base16_slice_bound payload 16 18 H ltac:(lia) ltac:(lia)) as B1.
  pose proof (base16_slice_bound payload 18 20 H ltac:(lia) ltac:(lia)) as B2.
  pose proof (base16_slice_bound payload 20 22 H ltac:(lia) ltac:(lia)) as B3.
  pose proof (base16_slice_bound payload 22 24 H ltac:(lia) ltac:(lia)) as B4.
  change (16 ^ (18 - 16)) with 256 in B1. change (16 ^ (20 - 18)) with 256 in B2.
  change (16 ^ (22 - 20)) with 256 in B3. change (16 ^ (24 - 22)) with 256 in B4.
  destruct (octet_render _ B1) as (-> & _ & _).
  destruct (octet_render _ B2) as (-> & _ & _).
  destruct (octet_render _ B3) as (-> & _ & _).
  destruct (octet_render _ B4) as (-> & _ & _).
  rewrite <- !append_assoc. cbn [append].
  fold (quad (base16 (code_units payload 16 18)) (base16 (code_units payload 18 20))
             (base16 (code_units payload 20 22)) (base16 (code_units payload 22 24))).
  unfold formatOutput, isNaN, Number. cbn [ToNumber is_nullish ToString typeof].
  rewrite !Z2num_not_nan.
  rewrite ip_pattern_dotted_quad by (apply quad_dotted; assumption).
  reflexivity.
Qed.

End LayoutFacts.

Section EncodingFacts.

Lemma digits_no_sep (sep : ascii) (s : string) :
  is_digit sep = false -> all_chars is_digit s = true -> contains sep s = false.
Proof.
  intros Hsep. induction s as [|c s IH]; intros H; [reflexivity|].
  cbn [all_chars] in H. apply andb_true_iff in H as [Hc Hs].
  cbn [contains]. rewrite IH by exact Hs.
  replace (Ascii.eqb c sep) with false; [reflexivity|].
  symmetry. apply Ascii.eqb_neq. intros ->. congruence.
Qed.

Lemma octet_string_digits (s : string) :
  octet_string s = true -> all_chars is_digit s = true.
Proof.
  unfold octet_string. intros H.
  apply andb_true_iff in H as [H _]. now apply andb_true_iff in H as [_ H].
Qed.

Lemma hex_no_comma (s : string) :
  all_chars lower_hex s = true -> contains "," s = false.
Proof.
  induction s as [|c s IH]; intros H; [reflexivity|].
  cbn [all_chars] in H. apply andb_true_iff in H as [Hc Hs].
  cbn [contains]. rewrite IH by exact Hs.
  destruct (lower_hex_not_special c Hc) as (_ & _ & _ & -> & _). reflexivity.
Qed.

Lemma encode_ip_quad (a b c d : Z) :
  0 <= a < 256 -> 0 <= b < 256 -> 0 <= c < 256 -> 0 <= d < 256 ->
  encode_ip (VStr (quad a b c d)) =
  cat_opt (hex_of 2 a) (cat_opt (hex_of 2 b) (cat_opt (hex_of 2 c) (hex_of 2 d))).
Proof.
  intros Ha Hb Hc Hd.
  destruct (octet_render a Ha) as (_ & Oa & Va).
  destruct (octet_render b Hb) as (_ & Ob & Vb).
  destruct (octet_render c Hc) as (_ & Oc & Vc).
  destruct (octet_render d Hd) as (_ & Od & Vd).
  unfold encode_ip, quad. cbn [append].
  rewrite !split_first, split_absent
    by (apply digits_no_sep; [reflexivity|now apply octet_string_digits]).
  unfold encode_octet. now rewrite Oa, Ob, Oc, Od, Va, Vb, Vc, Vd.
Qed.

Lemma hex_char_digit (d : Z) :
  0 <= d < 16 -> digit_value (hex_char d) = d /\ lower_hex (hex_char d) = true.
Proof.
  intros H. destruct d as [|p|p]; [split; reflexivity| |lia].
  destruct p as [[[[p|p|]|[p|p|]|]|[[p|p|]|[p|p|]|]|]
                |[[[p|p|]|[p|p|]|]|[[p|p|]|[p|p|]|]|]|];
    try lia; split; reflexivity.
Qed.

Lemma to_hex_value (width : nat) :
  forall z acc, 0 <= z ->
    String.length (to_hex width z acc) = (width + String.length acc)%nat /\
    (forall a, horner 16 a (to_hex width z acc)
               = horner 16 (a * 16 ^ Z.of_nat width + z mod 16 ^ Z.of_nat width)
                   acc) /\
    (all_chars lower_hex acc = true ->
     all_chars lower_hex (to_hex width z acc) = true).
Proof.
  induction width as [|w IH]; intros z acc Hz.
  - cbn [to_hex]. split; [reflexivity|]. split; [|tauto].
    intros a. f_equal. cbn. rewrite Z.mod_1_r. lia.
  - cbn [to_hex].
    assert (Hq : 0 <= z / 16) by (apply Z.div_pos; lia).
    assert (Hd : 0 <= z mod 16 < 16) by (apply Z.mod_pos_bound; lia).
    destruct (hex_char_digit _ Hd) as [Dv Dl].
    destruct (IH (z / 16) (String (hex_char (z mod 16)) acc) Hq)
      as (L & V & A).
    split; [rewrite L; cbn [String.length]; lia|]. split.
    + intros a. rewrite V. cbn [horner]. f_equal. rewrite Dv.
      rewrite Nat2Z.inj_succ, Z.pow_succ_r by lia.
      assert (0 < 16 ^ Z.of_nat w) by (apply Z.pow_pos_nonneg; lia).
      rewrite (Z.rem_mul_r z 16 (16 ^ Z.of_nat w)) by lia. lia.
    + intros Ha. apply A. cbn [all_chars]. now rewrite Dl, Ha.
Qed.

(** [hex_of] has exactly one writing for a value: a string of [width]
    lower-case hex digits whose base-16 value it is. *)
Lemma hex_of_inv (width : nat) (z : Z) (s : string) :
  hex_of width z = Some s ->
  String.length s = width /\ base16 s = z /\ all_chars lower_hex s = true.
Proof.
  unfold hex_of. destruct (0 <=? z) eqn:E1; [|discriminate].
  destruct (z <? 16 ^ Z.of_nat width) eqn:E2; [|discriminate].
  cbn [andb]. intros [= <-].
  apply Z.leb_le in E1. apply Z.ltb_lt in E2.
  destruct (to_hex_value width z EmptyString E1) as (L & V & A).
  split; [rewrite L; cbn [String.length]; lia|]. split; [|now apply A].
  unfold base16. rewrite V. cbn [horner]. rewrite Z.mod_small by lia. lia.
Qed.

Lemma hex_of_slice (s : string) (a b : Z) (width : nat) :
  all_chars lower_hex s = true -> 0 <= a <= b -> b <= str_length s ->
  width = Z.to_nat (b - a) ->
  hex_of width (base16 (code_units s a b)) = Some (code_units s a b).
Proof.
  intros H Hab Hb ->. rewrite <- (code_units_length s a b) by lia.
  apply hex_of_base16, code_units_all, H.
Qed.


Lemma trim_left_white (s : string) :
  all_chars is_white s = true -> trim_left s = EmptyString.
Proof.
  induction s as [|c s IH]; intros H; [reflexivity|].
  cbn [all_chars] in H. apply andb_true_iff in H as [Hc Hs].
  cbn [trim_left]. now rewrite Hc, IH.
Qed.

Lemma StringToNumber_white (s : string) :
  all_chars is_white s = true -> StringToNumber s = pos_zero.
Proof.
  intros H. unfold StringToNumber, trim. now rewrite trim_left_white.
Qed.

Lemma cat_opt_inv (a b : option string) (s : string) :
  cat_opt a b = Some s -> exists x y, a = Some x /\ b = Some y /\ s = x ++ y.
Proof.
  destruct a as [x|], b as [y|]; cbn; try discriminate.
  intros [= <-]. now exists x, y.
Qed.

Lemma encode_int_inv (width : nat) (v : value) (s : string) :
  encode_int width v = Some s ->
  String.length s = width /\ int_value v = Some (base16 s).
Proof.
  unfold encode_int. destruct (int_value v) as [z|]; [|discriminate].
  intros H. apply hex_of_inv in H as (L & V & _). now rewrite V.
Qed.

Lemma encode_octet_inv (t s : string) :
  encode_octet t = Some s ->
  octet_string t = true /\ String.length s = 2%nat /\ base10 t = base16 s.
Proof.
  unfold encode_octet. destruct (octet_string t); [|discriminate].
  intros H. apply hex_of_inv in H as (L & V & _). now rewrite V.
Qed.

Lemma code_units_prefix (x y : string) (n : Z) :
  n = Z.of_nat (String.length x) -> code_units (x ++ y) 0 n = x.
Proof.
  intros ->. unfold code_units. rewrite Z.sub_0_r, Nat2Z.id.
  change (Z.to_nat 0) with 0%nat.
  replace (drop 0 (x ++ y)) with (x ++ y) by (now destruct (x ++ y)).
  apply take_append.
Qed.

Lemma code_units_shift (x y : string) (a b : Z) :
  Z.of_nat (String.length x) <= a ->
  code_units (x ++ y) a b
  = code_units y (a - Z.of_nat (String.length x))
      (b - Z.of_nat (String.length x)).
Proof.
  intros H. unfold code_units.
  replace (b - Z.of_nat (String.length x) - (a - Z.of_nat (String.length x)))
    with (b - a) by lia.
  f_equal.
  replace (Z.to_nat a)
    with (String.length x + Z.to_nat (a - Z.of_nat (String.length x)))%nat
    by lia.
  now rewrite <- drop_drop, drop_append.
Qed.

(** The writing pins the record: a record that [encode] writes as [payload]
    holds, in [mnc], [bytes_used] and [cellid], the base-16 values of the
    nibbles 0:4, 4:8 and 8:16, and in [ip] four decimal octets whose values
    are those of the nibble pairs 16:18, 18:20, 20:22 and 22:24. *)
Lemma encode_pins (r : UsageRecord) (payload : string) :
  encode r = Some payload ->
  String.length payload = 24%nat /\
  int_value (mnc r) = Some (base16 (code_units payload 0 4)) /\
  int_value (bytes_used r) = Some (base16 (code_units payload 4 8)) /\
  int_value (cellid r) = Some (base16 (code_units payload 8 16)) /\
  exists s a b c d,
    ip r = VStr s /\ split s "." = [a; b; c; d] /\
    octet_string a = true /\ octet_string b = true /\
    octet_string c = true /\ octet_string d = true /\
    base10 a = base16 (code_units payload 16 18) /\
    base10 b = base16 (code_units payload 18 20) /\
    base10 c = base16 (code_units payload 20 22) /\
    base10 d = base16 (code_units payload 22 24).
Proof.
  unfold encode. intros H.
  apply cat_opt_inv in H as (s1 & t1 & H1 & H & ->).
  apply cat_opt_inv in H as (s2 & t2 & H2 & H & ->).
  apply cat_opt_inv in H as (s3 & s4 & H3 & H4 & ->).
  apply encode_int_inv in H1 as (L1 & V1).
  apply encode_int_inv in H2 as (L2 & V2).
  apply encode_int_inv in H3 as (L3 & V3).
  unfold encode_ip in H4.
  destruct (ip r) as [| | | |s|] eqn:Ev; try discriminate.
  destruct (split s ".") as [|a [|b [|c [|d [|]]]]] eqn:Es; try discriminate.
  apply cat_opt_inv in H4 as (o1 & u1 & O1 & H4 & ->).
  apply cat_opt_inv in H4 as (o2 & u2 & O2 & H4 & ->).
  apply cat_opt_inv in H4 as (o3 & o4 & O3 & O4 & ->).
  apply encode_octet_inv in O1 as (Oa & La & Va).
  apply encode_octet_inv in O2 as (Ob & Lb & Vb).
  apply encode_octet_inv in O3 as (Oc & Lc & Vc).
  apply encode_octet_inv in O4 as (Od & Ld & Vd).
  assert (S1 : forall y, code_units (s1 ++ y) 0 4 = s1)
    by (intros y; apply code_units_prefix; lia).
  assert (S2 : forall y, code_units (s1 ++ s2 ++ y) 4 8 = s2).
  { intros y. rewrite code_units_shift by lia. rewrite L1.
    apply code_units_prefix. lia. }
  assert (S3 : forall y, code_units (s1 ++ s2 ++ s3 ++ y) 8 16 = s3).
  { intros y. rewrite code_units_shift by lia. rewrite L1.
    rewrite code_units_shift by lia. rewrite L2.
    apply code_units_prefix. lia. }
  assert (T : forall a b, 0 <= a ->
            code_units (s1 ++ s2 ++ s3 ++ o1 ++ o2 ++ o3 ++ o4) (16 + a) (16 + b)
            = code_units (o1 ++ o2 ++ o3 ++ o4) a b).
  { intros x y Hx. rewrite code_units_shift by lia. rewrite L1.
    rewrite code_units_shift by lia. rewrite L2.
    rewrite code_units_shift by lia. rewrite L3. f_equal; lia. }
  assert (W4 : code_units o4 0 2 = o4).
  { pose proof (code_units_whole o4) as W. unfold str_length in W.
    now rewrite Ld in W. }
  split.
  { rewrite !length_append. lia. }
  rewrite S1, S2, S3. repeat (split; [assumption|]).
  exists s, a, b, c, d. repeat (split; [assumption|]).
  pose proof (T 0 2 ltac:(lia)) as T1. pose proof (T 2 4 ltac:(lia)) as T2.
  pose proof (T 4 6 ltac:(lia)) as T3. pose proof (T 6 8 ltac:(lia)) as T4.
  change (16 + 0) with 16 in T1. change (16 + 2) with 18 in T1, T2.
  change (16 + 4) with 20 in T2, T3. change (16 + 6) with 22 in T3, T4.
  change (16 + 8) with 24 in T4.
  rewrite T1, T2, T3, T4.
  rewrite Va, Vb, Vc, Vd.
  rewrite code_units_prefix by lia.
  rewrite (code_units_shift o1) by lia. rewrite La.
  rewrite (code_units_prefix o2) by lia.
  rewrite (code_units_shift o1) by lia. rewrite La.
  rewrite (code_units_shift o2) by lia. rewrite Lb.
  rewrite (code_units_prefix o3) by lia.
  rewrite (code_units_shift o1) by lia. rewrite La.
  rewrite (code_units_shift o2) by lia. rewrite Lb.
  rewrite (code_units_shift o3) by lia. rewrite Lc.
  change (6 - Z.of_nat 2 - Z.of_nat 2 - Z.of_nat 2) with 0.
  change (8 - Z.of_nat 2 - Z.of_nat 2 - Z.of_nat 2) with 2.
  rewrite W4. repeat split; assumption || reflexivity.
Qed.

End EncodingFacts.

Section Dispatch.

Lemma dispatch_by_layout (id : string) :
  (slice id (-1) =? "6")%string
    = match layout_of id with Hex => true | _ => false end /\
  (slice id (-1) =? "4")%string
    = match layout_of id with Extended => true | _ => false end.
Proof.
  rewrite !slice_last_is. unfold layout_of.
  destruct (last_char id) as [c|]; [|split; reflexivity].
  destruct (Ascii.eqb c "6") eqn:E6.
  - apply Ascii.eqb_eq in E6 as ->. split; reflexivity.
  - destruct (Ascii.eqb c "4"); split; reflexivity.
Qed.

Lemma layout_of_last (id : string) (c : ascii) :
  last_char id = Some c ->
  layout_of id =
  if Ascii.eqb c "6" then Hex else if Ascii.eqb c "4" then Extended else Default.
Proof. intros H. unfold layout_of. now rewrite H. Qed.

Lemma usage_hex_line (id payload : string) :
  contains "," id = false -> layout_of id = Hex ->
  String.length payload = 24%nat -> all_chars lower_hex payload = true ->
  UsageParser.parseSingle (VStr (line id payload))
  = Return (Some (hex_fields (VStr id) payload)).
Proof.
  intros Hid Hk Hl Hp.
  rewrite usage_parseSingle_line, getFormatter_cases by exact Hid.
  destruct (dispatch_by_layout id) as [-> _]. rewrite Hk.
  cbn [UsageParser.isValid UsageParser.HEX UsageParser.process].
  now rewrite hex_pattern_accepts.
Qed.

Lemma part000_hex_line (id payload : string) :
  contains "," id = false -> layout_of id = Hex ->
  String.length payload = 24%nat -> all_chars lower_hex payload = true ->
  Part000.parseSingle (VStr (line id payload))
  = Return (Some (hex_fields (VStr id) payload)).
Proof.
  intros Hid Hk Hl Hp.
  rewrite part000_parseSingle_line by exact Hid. cbv zeta.
  unfold Part000.PROCESS_EXTENDED, Part000.PROCESS_HEX.
  destruct (dispatch_by_layout id) as [-> ->]. rewrite Hk.
  rewrite split_absent by (apply hex_no_comma, Hp).
  unfold Part000.parseHex. cbn [element nth_error ToString].
  now rewrite hex_pattern_accepts.
Qed.

Lemma usage_extended_line (id payload : string) :
  contains "," id = false -> layout_of id = Extended ->
  List.length (split payload ",") = 4%nat ->
  UsageParser.parseSingle (VStr (line id payload))
  = Return (Some (formatOutput (VStr id)
                    (element (split payload ",") 1)
                    (element (split payload ",") 2)
                    (element (split payload ",") 0)
                    (element (split payload ",") 3) VUndefined)).
Proof.
  intros Hid Hk Hl.
  rewrite usage_parseSingle_line, getFormatter_cases by exact Hid.
  destruct (dispatch_by_layout id) as [-> ->]. rewrite Hk.
  cbn [UsageParser.isValid UsageParser.EXTENDED UsageParser.process].
  now rewrite Hl.
Qed.

Lemma part000_extended_line (id payload : string) :
  contains "," id = false -> layout_of id = Extended ->
  Part000.parseSingle (VStr (line id payload))
  = Return (Some (formatOutput (VStr id)
                    (element (split payload ",") 1)
                    (element (split payload ",") 2)
                    (element (split payload ",") 0)
                    (element (split payload ",") 3) VUndefined)).
Proof.
  intros Hid Hk.
  rewrite part000_parseSingle_line by exact Hid. cbv zeta.
  unfold Part000.PROCESS_EXTENDED.
  destruct (dispatch_by_layout id) as [_ ->]. rewrite Hk. reflexivity.
Qed.

Lemma usage_default_line (id payload : string) :
  contains "," id = false -> layout_of id = Default ->
  is_nan (StringToNumber payload) = false ->
  UsageParser.parseSingle (VStr (line id payload))
  = Return (Some (formatOutput (VStr id) VUndefined (VStr payload)
                    VUndefined VUndefined VUndefined)).
Proof.
  intros Hid Hk Hn.
  rewrite usage_parseSingle_line, getFormatter_cases by exact Hid.
  destruct (dispatch_by_layout id) as [-> ->]. rewrite Hk.
  cbn [UsageParser.isValid UsageParser.DEFAULT UsageParser.process].
  unfold isNaN. cbn [ToNumber]. now rewrite Hn.
Qed.

Lemma part000_default_line (id payload : string) :
  contains "," id = false -> layout_of id = Default ->
  contains "," payload = false ->
  Part000.parseSingle (VStr (line id payload))
  = Return (Some (formatOutput (VStr id) VUndefined (VStr payload)
                    VUndefined VUndefined VUndefined)).
Proof.
  intros Hid Hk Hp.
  rewrite part000_parseSingle_line by exact Hid. cbv zeta.
  unfold Part000.PROCESS_EXTENDED, Part000.PROCESS_HEX.
  destruct (dispatch_by_layout id) as [-> ->]. rewrite Hk.
  now rewrite split_absent by exact Hp.
Qed.

(** On a well-formed line the two variants return the same slot. *)
Lemma parseSingle_agree (text : string) :
  well_formed text ->
  UsageParser.parseSingle (VStr text) = Part000.parseSingle (VStr text).
Proof.
  intros (id & payload & -> & Hid & Hwf).
  destruct (layout_of id) eqn:Hk; cbn [well_formed_payload] in Hwf.
  - apply andb_true_iff in Hwf as [Hl Hp]. apply Nat.eqb_eq in Hl.
    now rewrite usage_hex_line, part000_hex_line.
  - apply Nat.eqb_eq in Hwf.
    now rewrite usage_extended_line, part000_extended_line.
  - apply andb_true_iff in Hwf as [Hc Hn].
    apply negb_true_iff in Hc, Hn.
    now rewrite usage_default_line, part000_default_line.
Qed.

Lemma usage_parse_text (text : string) (r : slot) :
  UsageParser.parseSingle (VStr text) = Return r ->
  UsageParser.parse (VStr text) = Return [r].
Proof. intros H. unfold UsageParser.parse. now rewrite H. Qed.

Lemma part000_parse_text (text : string) (r : slot) :
  Part000.parseSingle (VStr text) = Return r ->
  Part000.parse (VStr text) = Return [r].
Proof. intros H. unfold Part000.parse. now rewrite H. Qed.

End Dispatch.


(** ** Worked examples *)

(** The sample batch of the specification: a Default line, a Hex line and a
    line that the Default method rejects. *)
Example sample_batch :
  UsageParser.parse
    (VArr [VStr "123,500"; VStr "45546,deadbeef00000000cafe0102";
           VStr "77,1,2,3,4"])
  = Return
      [Some {| id := VNum (Z2num 123); dmcc := VNull; mnc := VNull;
               bytes_used := VNum (Z2num 500); cellid := VNull;
               ip := VNull |};
       Some {| id := VNum (Z2num 45546); dmcc := VNull;
               mnc := VNum (Z2num 57005); bytes_used := VNum (Z2num 48879);
               cellid := VNum (Z2num 0); ip := VStr "202.254.1.2" |};
       None].
Proof. vm_compute. reflexivity. Qed.

(** Off the well-formed lines the two variants differ: [part_000] has no
    validator for the Default and Extended layouts and builds a record from
    whatever tokens there are. *)
Example variants_differ_on_malformed :
  UsageParser.parse (VStr "77,1,2,3,4") = Return [None] /\
  Part000.parse (VStr "77,1,2,3,4")
  = Return [Some {| id := VNum (Z2num 77); dmcc := VNull; mnc := VNull;
                    bytes_used := VNum (Z2num 1); cellid := VNull;
                    ip := VNull |}] /\
  UsageParser.parse (VStr "774,310,12") = Return [None] /\
  Part000.parse (VStr "774,310,12")
  = Return [Some {| id := VNum (Z2num 774); dmcc := VStr "310";
                    mnc := VNum (Z2num 12); bytes_used := VNull;
                    cellid := VNull; ip := VNull |}].
Proof. repeat split; vm_compute; reflexivity. Qed.

(* ================================================================== *)
(** * Further facts about the patterns, numbers and batches            *)
(* ================================================================== *)

Section Repetition.

Variable r : regex.

Lemma flat_map_flat_map {A B C : Type} (f : A -> list B) (g : B -> list C)
  (l : list A) :
  flat_map g (flat_map f l) = flat_map (fun x => flat_map g (f x)) l.
Proof.
  induction l as [|x l IH]; [reflexivity|].
  cbn [flat_map]. now rewrite flat_map_app, IH.
Qed.

(** One more repetition: match [r] once, then [n] times from every state
    reached. *)
Lemma run_times_succ (n : nat) (st : state) :
  run (Times (S n) r) st = flat_map (run (Times n r)) (run r st).
Proof.
  cbn [run].
  set (iter := fix iter (n : nat) (sts : list state) : list state :=
         match n with
         | O => sts
         | S n' => iter n' (flat_map (run r) sts)
         end).
  assert (H : forall k sts, iter k sts = flat_map (fun s => iter k [s]) sts).
  { induction k as [|k IH]; intros sts.
    - cbn [iter]. induction sts as [|s sts IHs]; [reflexivity|].
      cbn [flat_map app]. now rewrite <- IHs.
    - cbn [iter]. rewrite IH, flat_map_flat_map.
      apply flat_map_ext. intros s. cbn [flat_map]. rewrite app_nil_r.
      now rewrite <- IH. }
  change (iter (S n) [st] = flat_map (fun s => iter n [s]) (run r st)).
  cbn [iter flat_map]. rewrite app_nil_r. apply H.
Qed.

End Repetition.

Section HexValidator.

Lemma run_times_chars_in (p : ascii -> bool) (n : nat) :
  forall prev s st',
    In st' (run (Times n (Chars p)) (prev, s)) ->
    snd st' = drop n s /\ (n <= String.length s)%nat /\
    all_chars p (take n s) = true.
Proof.
  induction n as [|n IH]; intros prev s st' H.
  - cbn in H. destruct H as [<-|[]]. cbn. repeat split. lia.
  - rewrite run_times_succ in H. apply in_flat_map in H as (st1 & H1 & H2).
    cbn [run snd] in H1. destruct s as [|c s]; [contradiction|].
    destruct (p c) eqn:Hc; [|contradiction].
    destruct H1 as [<-|[]].
    destruct (IH _ _ _ H2) as (E & L & A).
    cbn [drop take all_chars String.length]. rewrite Hc, A. repeat split; [exact E|lia].
Qed.

Lemma hex_pattern_not_inside (c : ascii) (s : string) :
  test_from hex_pattern (Some c) s = false.
Proof.
  revert c. induction s as [|a s IH]; intros c; [reflexivity|].
  cbn [test_from]. rewrite IH. reflexivity.
Qed.

Lemma take_whole (n : nat) (s : string) :
  (String.length s <= n)%nat -> take n s = s.
Proof.
  revert s. induction n as [|n IH]; intros [|c s] H; cbn in *; try reflexivity; try lia.
  rewrite IH by lia. reflexivity.
Qed.

Lemma drop_empty_length (n : nat) (s : string) :
  drop n s = EmptyString -> (String.length s <= n)%nat.
Proof.
  revert s. induction n as [|n IH]; intros [|c s] H; cbn in *; try lia; try discriminate.
  specialize (IH s H). lia.
Qed.

Lemma hex_pattern_sound (s : string) :
  test hex_pattern s = true ->
  String.length s = 24%nat /\ all_chars lower_hex s = true.
Proof.
  unfold test. intros H.
  assert (M : matches_at hex_pattern (None, s) = true).
  { destruct s as [|c s]; cbn [test_from] in H.
    - now rewrite orb_false_r in H.
    - now rewrite hex_pattern_not_inside, orb_false_r in H. }
  unfold matches_at in M.
  destruct (run hex_pattern (None, s)) as [|st' l] eqn:R; [discriminate|].
  assert (I : In st' (run hex_pattern (None, s))) by (rewrite R; now left).
  unfold hex_pattern in I. cbn [run fst flat_map] in I. rewrite app_nil_r in I.
  apply in_flat_map in I as (st1 & I1 & I2).
  change (In st1 (run (Times 24 (Chars lower_hex)) (None, s))) in I1.
  apply run_times_chars_in in I1 as (E & L & A).
  destruct (snd st1) eqn:S1; [|contradiction].
  symmetry in E. apply drop_empty_length in E.
  rewrite take_whole in A by lia. split; [lia|exact A].
Qed.

End HexValidator.

Section CommaIsNotNumeric.

Lemma contains_trim_left (c : ascii) (s : string) :
  is_white c = false -> contains c (trim_left s) = contains c s.
Proof.
  intros Hc. induction s as [|a s IH]; [reflexivity|].
  cbn [trim_left]. destruct (is_white a) eqn:Ha; [|reflexivity].
  cbn [contains]. rewrite IH.
  replace (Ascii.eqb a c) with false; [reflexivity|].
  symmetry. apply Ascii.eqb_neq. intros ->. congruence.
Qed.

Lemma contains_trim_right (c : ascii) (s : string) :
  is_white c = false -> contains c (trim_right s) = contains c s.
Proof.
  intros Hc. induction s as [|a s IH]; [reflexivity|].
  cbn [trim_right contains]. rewrite <- IH.
  destruct (trim_right s) as [|b t]; [|reflexivity].
  destruct (is_white a) eqn:Ha; [|reflexivity].
  cbn [contains]. rewrite orb_false_r.
  symmetry. apply Ascii.eqb_neq. intros ->. congruence.
Qed.

Lemma span_digits_keeps_comma (radix : Z) (s : string) (acc cnt : Z) :
  contains "," s = true ->
  contains "," (snd (span_digits radix s acc cnt)) = true.
Proof.
  revert acc cnt. induction s as [|a s IH]; intros acc cnt H; [discriminate|].
  cbn [span_digits]. destruct (digit_in radix a) as [d|] eqn:D; [|exact H].
  apply IH. cbn [contains] in H.
  destruct (Ascii.eqb a ",") eqn:E; [|exact H].
  apply Ascii.eqb_eq in E. subst a. unfold digit_in in D. cbn in D. discriminate.
Qed.

Lemma span_digits_comma_rest (radix : Z) (s : string) (acc cnt : Z) :
  contains "," s = true ->
  exists v n c rest, span_digits radix s acc cnt = (v, n, String c rest) /\
                     contains "," (String c rest) = true.
Proof.
  intros H. pose proof (span_digits_keeps_comma radix s acc cnt H) as K.
  destruct (span_digits radix s acc cnt) as [[v n] rest]. cbn [snd] in K.
  destruct rest as [|c rest]; [discriminate|]. now exists v, n, c, rest.
Qed.

Lemma strip_sign_keeps_comma (s : string) :
  contains "," s = true -> contains "," (snd (strip_sign s)) = true.
Proof.
  intros H. destruct s as [|a s]; [discriminate|]. unfold strip_sign.
  cbn [contains] in H.
  destruct (Ascii.eqb a "-") eqn:E1.
  { apply Ascii.eqb_eq in E1. subst a. exact H. }
  destruct (Ascii.eqb a "+") eqn:E2.
  { apply Ascii.eqb_eq in E2. subst a. exact H. }
  exact H.
Qed.

Lemma nondecimal_comma (radix : Z) (body : string) :
  contains "," body = true -> nondecimal radix body = None.
Proof.
  intros H. unfold nondecimal.
  destruct (span_digits_comma_rest radix body 0 0 H) as (v & n & c & rest & -> & _).
  reflexivity.
Qed.

Lemma exponent_part_comma (s : string) :
  contains "," s = true -> exponent_part s = None.
Proof.
  intros H. destruct s as [|a s]; [discriminate|]. unfold exponent_part.
  destruct (Ascii.eqb a "e" || Ascii.eqb a "E") eqn:E; [|reflexivity].
  assert (Hs : contains "," s = true).
  { cbn [contains] in H. destruct (Ascii.eqb a ",") eqn:Ec; [|exact H].
    apply Ascii.eqb_eq in Ec. subst a. discriminate. }
  pose proof (strip_sign_keeps_comma s Hs) as K.
  destruct (strip_sign s) as [neg s'']. cbn [snd] in K.
  destruct (span_digits_comma_rest 10 s'' 0 0 K) as (v & n & c & rest & -> & _).
  reflexivity.
Qed.

Lemma prefix_keeps_comma (lower upper : ascii) (s body : string) :
  Ascii.eqb lower "," = false -> Ascii.eqb upper "," = false ->
  contains "," s = true -> has_prefix_ci lower upper s = Some body ->
  contains "," body = true.
Proof.
  intros Hl Hu H P. unfold has_prefix_ci in P.
  destruct s as [|z [|c s]]; try discriminate.
  destruct (Ascii.eqb z "0") eqn:Ez; [|discriminate]. cbn [andb] in P.
  destruct (Ascii.eqb c lower || Ascii.eqb c upper) eqn:Ec; [|discriminate].
  injection P as <-. apply Ascii.eqb_eq in Ez. subst z.
  cbn [contains] in H. cbn [Ascii.eqb Bool.eqb orb] in H.
  destruct (Ascii.eqb c ",") eqn:E; [|exact H].
  apply Ascii.eqb_eq in E. subst c.
  apply orb_true_iff in Ec as [Ec|Ec]; rewrite Ascii.eqb_sym in Ec; congruence.
Qed.

Lemma unsigned_decimal_comma (neg : bool) (s : string) :
  contains "," s = true -> unsigned_decimal neg s = nan.
Proof.
  intros H. unfold unsigned_decimal.
  destruct (span_digits_comma_rest 10 s 0 0 H) as (v1 & n1 & c & r1 & -> & K).
  rewrite (exponent_part_comma _ K).
  destruct (Ascii.eqb c ".") eqn:Ec.
  - assert (K1 : contains "," r1 = true).
    { apply Ascii.eqb_eq in Ec. subst c. exact K. }
    destruct (span_digits_comma_rest 10 r1 v1 0 K1) as (v2 & n2 & c2 & r2 & -> & K2).
    rewrite (exponent_part_comma _ K2). now destruct (0 <? n1 + n2).
  - now destruct (0 <? n1).
Qed.

(** A string that holds a comma is not a numeric literal. *)
Lemma StringToNumber_comma (s : string) :
  contains "," s = true -> StringToNumber s = nan.
Proof.
  intros H. unfold StringToNumber.
  assert (T : contains "," (trim s) = true).
  { unfold trim. now rewrite contains_trim_right, contains_trim_left. }
  destruct (trim s) as [|a t] eqn:Et; [discriminate|].
  assert (N : forall l u, Ascii.eqb l "," = false -> Ascii.eqb u "," = false ->
              forall radix,
              match has_prefix_ci l u (String a t) with
              | Some body => nondecimal radix body
              | None => None
              end = None).
  { intros l u Hl Hu radix.
    destruct (has_prefix_ci l u (String a t)) as [body|] eqn:P; [|reflexivity].
    apply nondecimal_comma. exact (prefix_keeps_comma l u _ body Hl Hu T P). }
  assert (N16 := N "x"%char "X"%char eq_refl eq_refl 16).
  assert (N8 := N "o"%char "O"%char eq_refl eq_refl 8).
  assert (N2 := N "b"%char "B"%char eq_refl eq_refl 2).
  destruct (has_prefix_ci "x" "X" (String a t)) as [b16|];
    [rewrite N16|
     destruct (has_prefix_ci "o" "O" (String a t)) as [b8|];
     [rewrite N8|
      destruct (has_prefix_ci "b" "B" (String a t)) as [b2|]; [rewrite N2|]]].
  all: pose proof (strip_sign_keeps_comma _ T) as K;
       destruct (strip_sign (String a t)) as [neg body]; cbn [snd] in K;
       destruct (String.eqb body "Infinity") eqn:EI;
       [apply String.eqb_eq in EI; subst body; discriminate|];
       apply unsigned_decimal_comma, K.
Qed.

End CommaIsNotNumeric.

Section SplitCount.

Variable sep : ascii.

Lemma split_length (s : string) :
  List.length (split s sep) = S (count_char sep s).
Proof.
  induction s as [|a s IH]; [reflexivity|].
  cbn [split count_char]. destruct (Ascii.eqb a sep).
  - cbn [List.length]. now rewrite IH.
  - destruct (split s sep) as [|t ts] eqn:E; cbn [List.length] in *; lia.
Qed.

Lemma count_char_zero (s : string) :
  count_char sep s = O <-> contains sep s = false.
Proof.
  induction s as [|a s IH]; [now split|].
  cbn [count_char contains]. destruct (Ascii.eqb a sep); cbn [orb].
  - split; discriminate.
  - exact IH.
Qed.

Lemma split_head_no_sep (s : string) :
  contains sep (nth 0 (split s sep) EmptyString) = false.
Proof.
  induction s as [|a s IH]; [reflexivity|].
  cbn [split]. destruct (Ascii.eqb a sep) eqn:E; [reflexivity|].
  destruct (split s sep) as [|t ts]; cbn [nth contains] in *; now rewrite E.
Qed.

End SplitCount.

Section ShapeFacts.

Lemma hex_pattern_exact (s : string) :
  test hex_pattern s = well_formed_payload Hex s.
Proof.
  cbn [well_formed_payload].
  destruct (test hex_pattern s) eqn:T.
  - apply hex_pattern_sound in T as [L A]. rewrite L, A. reflexivity.
  - destruct ((String.length s =? 24)%nat && all_chars lower_hex s) eqn:W;
      [|reflexivity].
    apply andb_true_iff in W as [L A]. apply Nat.eqb_eq in L.
    now rewrite hex_pattern_accepts in T.
Qed.

Lemma element_first_token (id payload : string) :
  element (id :: split payload ",") 1 = VStr (first_token payload).
Proof.
  unfold first_token, element. cbn [nth_error].
  destruct (split_nonempty "," payload) as (t & ts & ->). reflexivity.
Qed.

Lemma numeric_field_shape (v : value) :
  number_or_null (if isNaN v then VNull else VNum (Number v)).
Proof.
  unfold isNaN, Number. destruct (is_nan (ToNumber v)) eqn:E.
  - now left.
  - right. now exists (ToNumber v).
Qed.

Lemma element_text_shape (l : list string) (i : nat) :
  let d := element l i in
  text_ok (if (typeof d =? "string")%string then d else VNull).
Proof.
  unfold element. destruct (nth_error l i) as [s|]; cbn.
  - right. now exists s.
  - now left.
Qed.

Lemma usage_parse_inv (text : string) (r : slot) :
  UsageParser.parse (VStr text) = Return [r] ->
  UsageParser.parseSingle (VStr text) = Return r.
Proof.
  unfold UsageParser.parse.
  destruct (UsageParser.parseSingle (VStr text)); cbn [bind]; congruence.
Qed.

Lemma part000_parse_inv (text : string) (r : slot) :
  Part000.parse (VStr text) = Return [r] ->
  Part000.parseSingle (VStr text) = Return r.
Proof.
  unfold Part000.parse.
  destruct (Part000.parseSingle (VStr text)); cbn [bind]; congruence.
Qed.

Lemma usage_hex_outcome (id payload : string) :
  contains "," id = false -> layout_of id = Hex ->
  UsageParser.parseSingle (VStr (line id payload))
  = Return (if well_formed_payload Hex payload
            then Some (hex_fields (VStr id) payload) else None).
Proof.
  intros Hid Hk.
  rewrite usage_parseSingle_line, getFormatter_cases by exact Hid.
  destruct (dispatch_by_layout id) as [-> _]. rewrite Hk.
  cbn [UsageParser.isValid UsageParser.HEX UsageParser.process].
  rewrite hex_pattern_exact. now destruct (well_formed_payload Hex payload).
Qed.

Lemma part000_hex_outcome (id payload : string) :
  contains "," id = false -> layout_of id = Hex ->
  Part000.parseSingle (VStr (line id payload))
  = Return (if well_formed_payload Hex (first_token payload)
            then Some (hex_fields (VStr id) (first_token payload)) else None).
Proof.
  intros Hid Hk.
  rewrite part000_parseSingle_line by exact Hid. cbv zeta.
  unfold Part000.PROCESS_EXTENDED, Part000.PROCESS_HEX.
  destruct (dispatch_by_layout id) as [-> ->]. rewrite Hk.
  unfold Part000.parseHex. rewrite element_first_token. cbn [ToString element nth_error].
  rewrite hex_pattern_exact.
  now destruct (well_formed_payload Hex (first_token payload)).
Qed.

Lemma hex_not_with_comma (s : string) :
  contains "," s = true -> well_formed_payload Hex s = false.
Proof.
  intros H. cbn [well_formed_payload].
  destruct (all_chars lower_hex s) eqn:A; [|apply andb_false_r].
  apply hex_no_comma in A. congruence.
Qed.

End ShapeFacts.

Section BatchFacts.

Lemma usage_forEach_push_acc (input : list value) (output : list slot) :
  UsageParser.forEach_push input output
  = bind (UsageParser.forEach_push input [])
      (fun out => Return (output ++ out)%list).
Proof.
  revert output. induction input as [|v input IH]; intros output.
  - cbn. now rewrite app_nil_r.
  - cbn [UsageParser.forEach_push].
    destruct (UsageParser.parseSingle v) as [r|e]; cbn [bind]; [|reflexivity].
    rewrite (IH (output ++ [r])%list), (IH ([] ++ [r])%list).
    destruct (UsageParser.forEach_push input []); cbn [bind]; [|reflexivity].
    now rewrite <- app_assoc.
Qed.

Lemma part000_forEach_push_acc (input : list value) (output : list slot) :
  Part000.forEach_push input output
  = bind (Part000.forEach_push input [])
      (fun out => Return (output ++ out)%list).
Proof.
  revert output. induction input as [|v input IH]; intros output.
  - cbn. now rewrite app_nil_r.
  - cbn [Part000.forEach_push].
    destruct (Part000.parseSingle v) as [r|e]; cbn [bind]; [|reflexivity].
    rewrite (IH (output ++ [r])%list), (IH ([] ++ [r])%list).
    destruct (Part000.forEach_push input []); cbn [bind]; [|reflexivity].
    now rewrite <- app_assoc.
Qed.

Lemma usage_forEach_push_app (l1 l2 : list value) (output : list slot) :
  UsageParser.forEach_push (l1 ++ l2) output
  = bind (UsageParser.forEach_push l1 output) (UsageParser.forEach_push l2).
Proof.
  revert output. induction l1 as [|v l1 IH]; intros output; [reflexivity|].
  cbn [app UsageParser.forEach_push].
  destruct (UsageParser.parseSingle v); cbn [bind]; [apply IH|reflexivity].
Qed.

Lemma part000_forEach_push_app (l1 l2 : list value) (output : list slot) :
  Part000.forEach_push (l1 ++ l2) output
  = bind (Part000.forEach_push l1 output) (Part000.forEach_push l2).
Proof.
  revert output. induction l1 as [|v l1 IH]; intros output; [reflexivity|].
  cbn [app Part000.forEach_push].
  destruct (Part000.parseSingle v); cbn [bind]; [apply IH|reflexivity].
Qed.

Lemma usage_batch_cons (v : value) (l : list value) :
  UsageParser.forEach_push (v :: l) []
  = bind (UsageParser.parseSingle v) (fun r =>
      bind (UsageParser.forEach_push l []) (fun out => Return (r :: out))).
Proof.
  cbn [UsageParser.forEach_push].
  destruct (UsageParser.parseSingle v); cbn [bind]; [|reflexivity].
  now rewrite usage_forEach_push_acc.
Qed.

Lemma part000_batch_cons (v : value) (l : list value) :
  Part000.forEach_push (v :: l) []
  = bind (Part000.parseSingle v) (fun r =>
      bind (Part000.forEach_push l []) (fun out => Return (r :: out))).
Proof.
  cbn [Part000.forEach_push].
  destruct (Part000.parseSingle v); cbn [bind]; [|reflexivity].
  now rewrite part000_forEach_push_acc.
Qed.

Lemma array_indexOf_absent (l : list value) (s : string) (i : Z) :
  0 <= i ->
  (array_indexOf_from l s i <? 0) = negb (existsb (is_string s) l).
Proof.
  revert i. induction l as [|x l IH]; intros i Hi; [reflexivity|].
  cbn [array_indexOf_from existsb]. destruct (is_string s x); cbn [orb negb].
  - apply Z.ltb_ge, Hi.
  - apply IH. lia.
Qed.

Lemma usage_parseSingle_throws (v : value) :
  UsageParser.parseSingle v = Throw TypeError <-> tolerated v = false.
Proof.
  destruct v as [| |b|n|s|l]; cbn [tolerated];
    try (split; [reflexivity|intros _; unfold UsageParser.parseSingle;
                                now rewrite guard_never_fires]).
  - destruct (usage_parseSingle_text s) as [r ->]. split; discriminate.
  - unfold UsageParser.parseSingle. rewrite guard_never_fires.
    rewrite array_indexOf_absent by lia.
    destruct (existsb (is_string ",") l); cbn [negb]; split;
      congruence || discriminate.
Qed.

Lemma part000_parseSingle_throws (v : value) :
  Part000.parseSingle v = Throw TypeError <-> is_text v = false.
Proof.
  destruct v as [| |b|n|s|l]; cbn [is_text];
    try (split; [reflexivity|intros _; unfold Part000.parseSingle,
                                Part000.validateInput;
                                now rewrite guard_never_fires]).
  destruct (part000_parseSingle_text s) as [r ->]. split; discriminate.
Qed.

End BatchFacts.

Section RecordShape.

Lemma normalized_number_shape (v : value) :
  number_or_null (normalized_number v).
Proof. exact (numeric_field_shape v). Qed.

Lemma element_cases (l : list string) (i : nat) :
  element l i = VUndefined \/ exists s, element l i = VStr s.
Proof.
  unfold element. destruct (nth_error l i) as [s|]; [right; now exists s|now left].
Qed.

(** The record of a call that passes no [ip]. *)
Lemma formatOutput_without_ip (idv m b d c : value) :
  d = VUndefined \/ (exists s, d = VStr s) ->
  let r := formatOutput idv m b d c VUndefined in
  well_typed r /\ id r = normalized_number idv /\ ip r = VNull /\
  (dmcc r <> VNull -> exists s, d = VStr s).
Proof.
  intros Hd r. subst r. unfold well_typed, formatOutput.
  cbn [id mnc bytes_used cellid dmcc ip is_nullish].
  repeat split; try apply numeric_field_shape; try (now left).
  - destruct Hd as [->|(s & ->)]; cbn; [now left|right; now exists s].
  - destruct Hd as [->|(s & ->)]; cbn; [congruence|intros _; now exists s].
Qed.

(** The record of a well-formed Hex payload. *)
Lemma hex_fields_shape (id_t payload : string) :
  well_formed_payload Hex payload = true ->
  let r := hex_fields (VStr id_t) payload in
  well_typed r /\ id r = normalized_number (VStr id_t) /\ dmcc r = VNull.
Proof.
  intros W r. subst r. cbn [well_formed_payload] in W.
  apply andb_true_iff in W as [L A]. apply Nat.eqb_eq in L.
  assert (Hlen : str_length payload = 24) by (unfold str_length; lia).
  rewrite hex_fields_decode by assumption.
  unfold well_typed. cbn [id mnc bytes_used cellid dmcc ip].
  pose proof (base16_slice_bound payload 16 18 A ltac:(lia) ltac:(lia)) as B1.
  pose proof (base16_slice_bound payload 18 20 A ltac:(lia) ltac:(lia)) as B2.
  pose proof (base16_slice_bound payload 20 22 A ltac:(lia) ltac:(lia)) as B3.
  pose proof (base16_slice_bound payload 22 24 A ltac:(lia) ltac:(lia)) as B4.
  change (16 ^ (18 - 16)) with 256 in B1. change (16 ^ (20 - 18)) with 256 in B2.
  change (16 ^ (22 - 20)) with 256 in B3. change (16 ^ (24 - 22)) with 256 in B4.
  repeat split; try apply normalized_number_shape; try (now left);
    try (right; eexists; split; [reflexivity|apply Z2num_not_nan]).
  right. eexists. split; [reflexivity|now apply quad_dotted].
Qed.

Lemma usage_record_shape (id_t payload : string) (r : UsageRecord) :
  contains "," id_t = false ->
  UsageParser.parseSingle (VStr (line id_t payload)) = Return (Some r) ->
  well_typed r /\ id r = normalized_number (VStr id_t) /\
  (dmcc r <> VNull -> layout_of id_t = Extended) /\
  (ip r <> VNull -> layout_of id_t = Hex).
Proof.
  intros Hid H. destruct (layout_of id_t) eqn:K.
  - rewrite usage_hex_outcome in H by assumption.
    destruct (well_formed_payload Hex payload) eqn:W; [|discriminate].
    injection H as <-. destruct (hex_fields_shape id_t payload W) as (T & I & D).
    split; [exact T|]. split; [exact I|]. split; [congruence|reflexivity].
  - rewrite usage_parseSingle_line, getFormatter_cases in H by exact Hid.
    destruct (dispatch_by_layout id_t) as [E6 E4]. rewrite E6, E4, K in H.
    destruct (UsageParser.isValid UsageParser.EXTENDED payload); [|discriminate].
    cbn [negb] in H. injection H as <-.
    cbn [UsageParser.process UsageParser.EXTENDED].
    edestruct formatOutput_without_ip as (T & I & P & _);
      [apply (element_cases (split payload ",") 0)|].
    split; [exact T|]. split; [exact I|]. split; [reflexivity|congruence].
  - rewrite usage_parseSingle_line, getFormatter_cases in H by exact Hid.
    destruct (dispatch_by_layout id_t) as [E6 E4]. rewrite E6, E4, K in H.
    destruct (UsageParser.isValid UsageParser.DEFAULT payload); [|discriminate].
    cbn [negb] in H. injection H as <-.
    cbn [UsageParser.process UsageParser.DEFAULT].
    edestruct formatOutput_without_ip as (T & I & P & D); [now left|].
    split; [exact T|]. split; [exact I|]. split; [|congruence].
    intros N. destruct (D N) as (s & Hs). discriminate.
Qed.

Lemma part000_record_shape (id_t payload : string) (r : UsageRecord) :
  contains "," id_t = false ->
  Part000.parseSingle (VStr (line id_t payload)) = Return (Some r) ->
  well_typed r /\ id r = normalized_number (VStr id_t) /\
  (dmcc r <> VNull -> layout_of id_t = Extended) /\
  (ip r <> VNull -> layout_of id_t = Hex).
Proof.
  intros Hid H. destruct (layout_of id_t) eqn:K.
  - rewrite part000_hex_outcome in H by assumption.
    destruct (well_formed_payload Hex (first_token payload)) eqn:W;
      [|discriminate].
    injection H as <-.
    destruct (hex_fields_shape id_t _ W) as (T & I & D).
    split; [exact T|]. split; [exact I|]. split; [congruence|reflexivity].
  - rewrite part000_parseSingle_line in H by exact Hid. cbv zeta in H.
    unfold Part000.PROCESS_EXTENDED, Part000.PROCESS_HEX in H.
    destruct (dispatch_by_layout id_t) as [E6 E4]. rewrite E4, K in H.
    injection H as <-. unfold Part000.parseExtended.
    edestruct formatOutput_without_ip as (T & I & P & _);
      [apply (element_cases (id_t :: split payload ",") 1)|].
    split; [exact T|]. split; [exact I|]. split; [reflexivity|congruence].
  - rewrite part000_parseSingle_line in H by exact Hid. cbv zeta in H.
    unfold Part000.PROCESS_EXTENDED, Part000.PROCESS_HEX in H.
    destruct (dispatch_by_layout id_t) as [E6 E4]. rewrite E6, E4, K in H.
    injection H as <-. unfold Part000.parseBasic.
    edestruct formatOutput_without_ip as (T & I & P & D); [now left|].
    split; [exact T|]. split; [exact I|]. split; [|congruence].
    intros N. destruct (D N) as (s & Hs). discriminate.
Qed.

End RecordShape.

Lemma white_no_comma (s : string) :
  all_chars is_white s = true -> contains "," s = false.
Proof.
  induction s as [|a s IH]; intros H; [reflexivity|].
  cbn [all_chars] in H. apply andb_true_iff in H as [Ha Hs].
  cbn [contains]. rewrite IH by exact Hs.
  replace (Ascii.eqb a ",") with false; [reflexivity|].
  symmetry. apply Ascii.eqb_neq. intros ->. discriminate.
Qed.


Section CallFacts.

Example hex_of_pads_and_checks :
  hex_of 4 10 = Some "000a" /\ hex_of 4 3735928559 = None /\
  hex_of 2 256 = None /\ hex_of 8 3735928559 = Some "deadbeef".
Proof. repeat split. Qed.




Lemma hex_ip_dotted (nibbles : string) :
  well_formed_payload Hex nibbles = true -> dotted_quad (hex_ip nibbles).
Proof.
  intros W. cbn [well_formed_payload] in W.
  apply andb_true_iff in W as [L A]. apply Nat.eqb_eq in L.
  assert (Hlen : str_length nibbles = 24) by (unfold str_length; lia).
  pose proof (base16_slice_bound nibbles 16 18 A ltac:(lia) ltac:(lia)) as B1.
  pose proof (base16_slice_bound nibbles 18 20 A ltac:(lia) ltac:(lia)) as B2.
  pose proof (base16_slice_bound nibbles 20 22 A ltac:(lia) ltac:(lia)) as B3.
  pose proof (base16_slice_bound nibbles 22 24 A ltac:(lia) ltac:(lia)) as B4.
  change (16 ^ (18 - 16)) with 256 in B1. change (16 ^ (20 - 18)) with 256 in B2.
  change (16 ^ (22 - 20)) with 256 in B3. change (16 ^ (24 - 22)) with 256 in B4.
  now apply quad_dotted.
Qed.



End CallFacts.

(** ** The normalizer off the candidates the handlers pass

    [#formatOutput] is private. Its callers never pass a string that merely
    contains a dotted quad, and never pass [null]; on such arguments the
    pattern, which has no anchors, and [Number(null)] decide. *)

Remark unanchored_ip_pattern :
  test ip_pattern "1.2.3.999" = true /\ test ip_pattern "1.2.3.4.5" = true /\
  ~ passed_ip (VStr "1.2.3.999") /\ ~ passed_ip (VStr "1.2.3.4.5").
Proof.
  split; [vm_compute; reflexivity|]. split; [vm_compute; reflexivity|].
  assert (Q : forall s, passed_ip (VStr s) ->
              exists a b c d,
                split s "." = [a; b; c; d] /\ octet_string d = true).
  { intros s P. inversion P as [|nibbles W E].
    destruct (hex_ip_dotted nibbles W)
      as (a & b & c & d & Oa & Ob & Oc & Od & ->).
    exists a, b, c, d. split; [|exact Od]. cbn [append].
    rewrite !split_first, split_absent
      by (apply digits_no_sep; [reflexivity|now apply octet_string_digits]).
    reflexivity. }
  split.
  - intros P. destruct (Q _ P) as (a & b & c & d & E & Od).
    vm_compute in E. injection E as <- <- <- <-. vm_compute in Od.
    discriminate.
  - intros P. destruct (Q _ P) as (a & b & c & d & E & _).
    vm_compute in E. discriminate.
Qed.

Remark null_candidate_reads_zero :
  mnc (formatOutput VUndefined VNull VUndefined VUndefined VUndefined
         VUndefined) = VNum pos_zero /\
  mnc (formatOutput VUndefined VUndefined VUndefined VUndefined VUndefined
         VUndefined) = VNull.
Proof. split; reflexivity. Qed.

(* ================================================================== *)
(** * The properties of the specification                              *)
(* ================================================================== *)

(** C1 (the defect). [parse] does throw on input that is not text: the guard
    [(!typeof input) == `string`] is false for every value, so [null], a
    Number, or an array holding a Number reaches [input.indexOf] (or
    [input.split]) and the call raises a TypeError, in both variants. *)
Theorem parse_throws_on_non_text :
  (forall input, not_typeof_is_string input = false) /\
  UsageParser.parse VNull = Throw TypeError /\
  UsageParser.parse (VArr [VStr "123,500"; VNum (Z2num 42)]) = Throw TypeError /\
  Part000.parse VNull = Throw TypeError /\
  Part000.parse (VArr [VStr "123,500"; VNum (Z2num 42)]) = Throw TypeError.
Proof.
  split; [exact guard_never_fires|].
  repeat split; vm_compute; reflexivity.
Qed.



(** C3. A line whose ID ends in ['6'] and whose payload is 24 characters of
    [0-9a-f] parses, in both variants, to a record whose [mnc], [bytes_used]
    and [cellid] are the base-16 values of characters 0..4, 4..8 and 8..16,
    and whose [ip] is the four octets of the slices 16:18, 18:20, 20:22 and
    22:24 in base 10, joined by dots. *)
Theorem hex_line_fields (id payload : string) :
  contains "," id = false -> last_char id = Some "6"%char ->
  String.length payload = 24%nat -> all_chars lower_hex payload = true ->
  exists r,
    UsageParser.parse (VStr (line id payload)) = Return [Some r] /\
    Part000.parse (VStr (line id payload)) = Return [Some r] /\
    int_value (mnc r) = Some (base16 (code_units payload 0 4)) /\
    int_value (bytes_used r) = Some (base16 (code_units payload 4 8)) /\
    int_value (cellid r) = Some (base16 (code_units payload 8 16)) /\
    ip r = VStr (dec_of_Z (base16 (code_units payload 16 18)) ++ "."
                 ++ dec_of_Z (base16 (code_units payload 18 20)) ++ "."
                 ++ dec_of_Z (base16 (code_units payload 20 22)) ++ "."
                 ++ dec_of_Z (base16 (code_units payload 22 24))).
Proof.
  intros Hid Hlast Hl Hp.
  assert (Hk : layout_of id = Hex) by (now rewrite (layout_of_last id "6")).
  assert (Hlen : str_length payload = 24) by (unfold str_length; lia).
  exists (hex_fields (VStr id) payload).
  split; [now apply usage_parse_text, usage_hex_line|].
  split; [now apply part000_parse_text, part000_hex_line|].
  rewrite hex_fields_decode by assumption.
  cbn [mnc bytes_used cellid ip int_value].
  pose proof (base16_slice_bound payload 0 4 Hp ltac:(lia) ltac:(lia)) as B1.
  pose proof (base16_slice_bound payload 4 8 Hp ltac:(lia) ltac:(lia)) as B2.
  pose proof (base16_slice_bound payload 8 16 Hp ltac:(lia) ltac:(lia)) as B3.
  change (16 ^ (4 - 0)) with 65536 in B1. change (16 ^ (8 - 4)) with 65536 in B2.
  change (16 ^ (16 - 8)) with 4294967296 in B3.
  assert (E53 : 2 ^ 53 = 9007199254740992) by reflexivity.
  rewrite !num2Z_Z2num by lia.
  repeat split; reflexivity.
Qed.

Lemma hex_line_fields_witness :
  exists r,
    UsageParser.parse (VStr (line "45546" "deadbeef00000000cafe0102"))
      = Return [Some r] /\
    int_value (mnc r) = Some 57005 /\ ip r = VStr "202.254.1.2".
Proof.
  destruct (hex_line_fields "45546" "deadbeef00000000cafe0102")
    as (r & H1 & _ & H2 & _ & _ & H3); try reflexivity.
  exists r. repeat split; assumption.
Defined.

(** C4. Decoding a well-formed Hex line is reversible: writing the decoded
    [mnc] and [bytes_used] as 4 nibbles each, [cellid] as 8 nibbles and the
    four octets of [ip] as 2 nibbles each, zero-padded lower-case hex, gives
    the 24-character payload back. *)
Theorem hex_line_reversible (id payload : string) :
  contains "," id = false -> last_char id = Some "6"%char ->
  String.length payload = 24%nat -> all_chars lower_hex payload = true ->
  exists r,
    UsageParser.parse (VStr (line id payload)) = Return [Some r] /\
    Part000.parse (VStr (line id payload)) = Return [Some r] /\
    encode r = Some payload.
Proof.
  intros Hid Hlast Hl Hp.
  assert (Hk : layout_of id = Hex) by (now rewrite (layout_of_last id "6")).
  assert (Hlen : str_length payload = 24) by (unfold str_length; lia).
  exists (hex_fields (VStr id) payload).
  split; [now apply usage_parse_text, usage_hex_line|].
  split; [now apply part000_parse_text, part000_hex_line|].
  rewrite hex_fields_decode by assumption.
  unfold encode, encode_int. cbn [mnc bytes_used cellid ip int_value].
  pose proof (base16_slice_bound payload 0 4 Hp ltac:(lia) ltac:(lia)) as B1.
  pose proof (base16_slice_bound payload 4 8 Hp ltac:(lia) ltac:(lia)) as B2.
  pose proof (base16_slice_bound payload 8 16 Hp ltac:(lia) ltac:(lia)) as B3.
  pose proof (base16_slice_bound payload 16 18 Hp ltac:(lia) ltac:(lia)) as B4.
  pose proof (base16_slice_bound payload 18 20 Hp ltac:(lia) ltac:(lia)) as B5.
  pose proof (base16_slice_bound payload 20 22 Hp ltac:(lia) ltac:(lia)) as B6.
  pose proof (base16_slice_bound payload 22 24 Hp ltac:(lia) ltac:(lia)) as B7.
  change (16 ^ (4 - 0)) with 65536 in B1. change (16 ^ (8 - 4)) with 65536 in B2.
  change (16 ^ (16 - 8)) with 4294967296 in B3.
  change (16 ^ (18 - 16)) with 256 in B4. change (16 ^ (20 - 18)) with 256 in B5.
  change (16 ^ (22 - 20)) with 256 in B6. change (16 ^ (24 - 22)) with 256 in B7.
  assert (E53 : 2 ^ 53 = 9007199254740992) by reflexivity.
  rewrite !num2Z_Z2num by lia.
  rewrite encode_ip_quad by assumption.
  rewrite (hex_of_slice payload 0 4 4), (hex_of_slice payload 4 8 4),
    (hex_of_slice payload 8 16 8), (hex_of_slice payload 16 18 2),
    (hex_of_slice payload 18 20 2), (hex_of_slice payload 20 22 2),
    (hex_of_slice payload 22 24 2) by (try exact Hp; try reflexivity; lia).
  cbn [cat_opt]. rewrite !code_units_app by lia.
  rewrite <- Hlen, code_units_whole. reflexivity.
Qed.

Lemma hex_line_reversible_witness :
  exists r,
    UsageParser.parse (VStr (line "45546" "deadbeef00000000cafe0102"))
      = Return [Some r] /\
    encode r = Some "deadbeef00000000cafe0102".
Proof.
  destruct (hex_line_reversible "45546" "deadbeef00000000cafe0102")
    as (r & H1 & _ & H2); try reflexivity.
  exists r. split; assumption.
Defined.

(** C5. A line [<id>4,<dmcc>,<mnc>,<bytes>,<cellid>] parses, in both
    variants, to the record that maps the four payload tokens by position:
    [dmcc] as text, [mnc], [bytes_used] and [cellid] normalized as numbers
    (as is the ID), and no [ip]. *)
Theorem extended_line_fields (id_t dmcc_t mnc_t bytes_t cellid_t : string) :
  contains "," id_t = false -> last_char id_t = Some "4"%char ->
  contains "," dmcc_t = false -> contains "," mnc_t = false ->
  contains "," bytes_t = false -> contains "," cellid_t = false ->
  let text :=
    line id_t (dmcc_t ++ "," ++ mnc_t ++ "," ++ bytes_t ++ "," ++ cellid_t) in
  let r :=
    {| id := normalized_number (VStr id_t);
       dmcc := VStr dmcc_t;
       mnc := normalized_number (VStr mnc_t);
       bytes_used := normalized_number (VStr bytes_t);
       cellid := normalized_number (VStr cellid_t);
       ip := VNull |} in
  UsageParser.parse (VStr text) = Return [Some r] /\
  Part000.parse (VStr text) = Return [Some r].
Proof.
  intros Hid Hlast Hd Hm Hb Hc text r. subst text r.
  assert (Hk : layout_of id_t = Extended)
    by (now rewrite (layout_of_last id_t "4")).
  assert (Hs : split (dmcc_t ++ "," ++ mnc_t ++ "," ++ bytes_t ++ "," ++ cellid_t) ","
               = [dmcc_t; mnc_t; bytes_t; cellid_t]).
  { cbn [append]. now rewrite !split_first, split_absent. }
  split.
  - apply usage_parse_text.
    rewrite usage_extended_line by (try assumption; now rewrite Hs).
    rewrite Hs. reflexivity.
  - apply part000_parse_text.
    rewrite part000_extended_line by assumption. rewrite Hs. reflexivity.
Qed.

Lemma extended_line_fields_witness :
  UsageParser.parse (VStr "774,310,12,5000,77")
  = Return [Some {| id := VNum (Z2num 774); dmcc := VStr "310";
                    mnc := VNum (Z2num 12); bytes_used := VNum (Z2num 5000);
                    cellid := VNum (Z2num 77); ip := VNull |}].
Proof.
  exact (proj1 (extended_line_fields "774" "310" "12" "5000" "77"
                  eq_refl eq_refl eq_refl eq_refl eq_refl eq_refl)).
Defined.

(** C6. A line [<digits>,<digits>] whose ID ends in neither ['6'] nor ['4']
    parses, in both variants, to a record whose [id] and [bytes_used] are
    the Numbers for the two tokens (exactly the integers they spell, below
    2^53) and whose [mnc], [dmcc], [cellid] and [ip] are absent. *)
Theorem default_line_fields (id_t bytes_t : string) :
  id_t <> EmptyString -> all_chars is_digit id_t = true ->
  bytes_t <> EmptyString -> all_chars is_digit bytes_t = true ->
  layout_of id_t = Default ->
  let r :=
    {| id := VNum (Z2num (base10 id_t)); dmcc := VNull; mnc := VNull;
       bytes_used := VNum (Z2num (base10 bytes_t)); cellid := VNull;
       ip := VNull |} in
  UsageParser.parse (VStr (line id_t bytes_t)) = Return [Some r] /\
  Part000.parse (VStr (line id_t bytes_t)) = Return [Some r] /\
  (base10 id_t < 2 ^ 53 -> int_value (id r) = Some (base10 id_t)) /\
  (base10 bytes_t < 2 ^ 53 -> int_value (bytes_used r) = Some (base10 bytes_t)).
Proof.
  intros Hi Hid Hb Hbd Hk r.
  assert (Ci : contains "," id_t = false) by (now apply digits_no_sep).
  assert (Cb : contains "," bytes_t = false) by (now apply digits_no_sep).
  assert (Ni : StringToNumber id_t = Z2num (base10 id_t))
    by (now apply StringToNumber_digits).
  assert (Nb : StringToNumber bytes_t = Z2num (base10 bytes_t))
    by (now apply StringToNumber_digits).
  assert (E : formatOutput (VStr id_t) VUndefined (VStr bytes_t)
                VUndefined VUndefined VUndefined = r).
  { unfold formatOutput, isNaN, Number. cbn [ToNumber is_nullish typeof].
    rewrite Ni, Nb, !Z2num_not_nan. reflexivity. }
  assert (P : forall s, 0 <= base10 s)
    by (intros s; apply horner_nonneg; try lia; apply digit_value_nonneg).
  repeat split.
  - apply usage_parse_text.
    rewrite usage_default_line; try assumption; [now rewrite E|].
    rewrite Nb. apply Z2num_not_nan.
  - apply part000_parse_text.
    rewrite part000_default_line by assumption. now rewrite E.
  - intros B. cbn [id r int_value]. apply num2Z_Z2num. specialize (P id_t). lia.
  - intros B. cbn [bytes_used r int_value]. apply num2Z_Z2num.
    specialize (P bytes_t). lia.
Qed.

Lemma default_line_fields_witness :
  UsageParser.parse (VStr "123,500")
  = Return [Some {| id := VNum (Z2num 123); dmcc := VNull; mnc := VNull;
                    bytes_used := VNum (Z2num 500); cellid := VNull;
                    ip := VNull |}].
Proof.
  refine (proj1 (default_line_fields "123" "500" _ eq_refl _ eq_refl eq_refl));
    discriminate.
Defined.

(** C7, as the claim states it, fails: the empty string that [split] leaves
    between two commas is not turned into an absent field, it becomes 0. *)
Lemma empty_string_is_zero :
  id (formatOutput (VStr EmptyString) VUndefined VUndefined VUndefined VUndefined
        VUndefined) = VNum pos_zero /\
  id (formatOutput (VStr EmptyString) VUndefined VUndefined VUndefined VUndefined
        VUndefined) <> VNull.
Proof. split; [reflexivity|discriminate]. Qed.

(** C7, amended. Each numeric field of the record is the candidate
    converted to a Number, and absent exactly when that conversion gives
    NaN. A string of digits gives the Number it spells, a Number other than
    NaN is kept, [undefined] and NaN give an absent field, and a string that
    is empty or all white space gives 0. *)
Theorem numeric_fields_normalized
  (raw_id raw_mnc raw_bytes raw_dmcc raw_cellid raw_ip : value) :
  let r := formatOutput raw_id raw_mnc raw_bytes raw_dmcc raw_cellid raw_ip in
  (id r = normalized_number raw_id /\ mnc r = normalized_number raw_mnc /\
   bytes_used r = normalized_number raw_bytes /\
   cellid r = normalized_number raw_cellid) /\
  (forall v, normalized_number v = VNull <-> is_nan (ToNumber v) = true) /\
  (forall s, s <> EmptyString -> all_chars is_digit s = true ->
     normalized_number (VStr s) = VNum (Z2num (base10 s))) /\
  (forall n, is_nan n = false -> normalized_number (VNum n) = VNum n) /\
  normalized_number VUndefined = VNull /\
  normalized_number (VNum nan) = VNull /\
  (forall s, all_chars is_white s = true ->
     normalized_number (VStr s) = VNum pos_zero).
Proof.
  cbv zeta. split; [repeat split|]. repeat split.
  - unfold normalized_number.
    destruct (is_nan (ToNumber v)); [reflexivity|discriminate].
  - unfold normalized_number.
    destruct (is_nan (ToNumber v)); [reflexivity|discriminate].
  - intros s Hne Hs. unfold normalized_number. cbn [ToNumber].
    now rewrite StringToNumber_digits, Z2num_not_nan.
  - intros n Hn. unfold normalized_number. cbn [ToNumber]. now rewrite Hn.
  - intros s Hs. unfold normalized_number. cbn [ToNumber].
    now rewrite StringToNumber_white.
Qed.





Lemma forEach_push_agree (lines : list string) :
  Forall well_formed lines ->
  forall output,
    UsageParser.forEach_push (map VStr lines) output
    = Part000.forEach_push (map VStr lines) output.
Proof.
  induction 1 as [|text lines Hwf _ IH]; intros output; [reflexivity|].
  cbn [map UsageParser.forEach_push Part000.forEach_push].
  rewrite (parseSingle_agree text Hwf).
  destruct (Part000.parseSingle (VStr text)); cbn [bind]; [apply IH|reflexivity].
Qed.

(** C10. On lines that are well-formed for the layout their ID selects, the
    two variants of [parse] return the same result, for a batch and for each
    line alone. *)
Theorem variants_agree_on_well_formed (lines : list string) :
  Forall well_formed lines ->
  UsageParser.parse (VArr (map VStr lines))
    = Part000.parse (VArr (map VStr lines)) /\
  Forall (fun text => UsageParser.parse (VStr text) = Part000.parse (VStr text))
    lines.
Proof.
  intros H. split.
  - apply forEach_push_agree, H.
  - revert H. apply Forall_impl. intros text Hwf.
    unfold UsageParser.parse, Part000.parse. now rewrite parseSingle_agree.
Qed.

Lemma variants_agree_on_well_formed_witness :
  UsageParser.parse
    (VArr [VStr "123,500"; VStr "45546,deadbeef00000000cafe0102";
           VStr "774,310,12,5000,77"])
  = Part000.parse
    (VArr [VStr "123,500"; VStr "45546,deadbeef00000000cafe0102";
           VStr "774,310,12,5000,77"]).
Proof.
  refine (proj1 (variants_agree_on_well_formed
                   ["123,500"; "45546,deadbeef00000000cafe0102";
                    "774,310,12,5000,77"] _)).
  repeat constructor.
  - exists "123", "500". repeat split.
  - exists "45546", "deadbeef00000000cafe0102". repeat split.
  - exists "774", "310,12,5000,77". repeat split.
Defined.

(* ================================================================== *)
(** * Further properties of the code                                   *)
(* ================================================================== *)

(** X1. [#getFormatter] never returns [null], and the method it picks is
    decided by the last character of the ID alone: [HEX] for ['6'],
    [EXTENDED] for ['4'], [DEFAULT] for anything else, the empty ID
    included. *)
Theorem getFormatter_by_last_character (id_t : string) :
  UsageParser.getFormatter id_t
  = Some (match layout_of id_t with
          | Hex => UsageParser.HEX
          | Extended => UsageParser.EXTENDED
          | Default => UsageParser.DEFAULT
          end).
Proof.
  rewrite getFormatter_cases.
  destruct (dispatch_by_layout id_t) as [-> ->].
  now destruct (layout_of id_t).
Qed.

(** X2. The Hex validator [/^[0-9a-f]{24}$/] accepts exactly the strings of
    24 characters that are all in [0-9a-f]: a shorter or longer string, an
    upper-case digit or any other character makes it reject. *)
Theorem hex_validator_exact (data : string) :
  UsageParser.isValid UsageParser.HEX data
  = ((String.length data =? 24)%nat && all_chars lower_hex data).
Proof. exact (hex_pattern_exact data). Qed.

(** X3. What a line with a Hex ID parses to: in [usage_parser.js] the Hex
    record of the payload when the whole payload is 24 hex digits and [null]
    otherwise; in [part_000] the same with the first payload token in place
    of the payload, whatever follows it. *)
Theorem hex_line_outcome (id_t payload : string) :
  contains "," id_t = false -> layout_of id_t = Hex ->
  UsageParser.parse (VStr (line id_t payload))
  = Return [if well_formed_payload Hex payload
            then Some (hex_fields (VStr id_t) payload) else None] /\
  Part000.parse (VStr (line id_t payload))
  = Return [if well_formed_payload Hex (first_token payload)
            then Some (hex_fields (VStr id_t) (first_token payload))
            else None].
Proof.
  intros Hid Hk. split.
  - apply usage_parse_text, usage_hex_outcome; assumption.
  - apply part000_parse_text, part000_hex_outcome; assumption.
Qed.

Lemma hex_line_outcome_witness :
  UsageParser.parse (VStr (line "16" "DEADBEEF00000000CAFE0102"))
  = Return [None].
Proof.
  exact (proj1 (hex_line_outcome "16" "DEADBEEF00000000CAFE0102"
                  eq_refl eq_refl)).
Defined.

(** X4. [part_000] reads a fixed number of tokens and ignores the rest: a
    line whose ID does not select the Extended layout parses as if it ended
    after its first payload token, and any line parses as if it ended after
    its fourth payload token. *)
Theorem part000_ignores_extra_tokens (id_t t1 extra : string) :
  contains "," id_t = false -> contains "," t1 = false ->
  (layout_of id_t <> Extended ->
   Part000.parse (VStr (line id_t (t1 ++ "," ++ extra)))
   = Part000.parse (VStr (line id_t t1))) /\
  (forall t2 t3 t4,
     contains "," t2 = false -> contains "," t3 = false ->
     contains "," t4 = false ->
     Part000.parse
       (VStr (line id_t (t1 ++ "," ++ t2 ++ "," ++ t3 ++ "," ++ t4 ++ ","
                         ++ extra)))
     = Part000.parse
       (VStr (line id_t (t1 ++ "," ++ t2 ++ "," ++ t3 ++ "," ++ t4)))).
Proof.
  intros Hid H1. split.
  - intros Hk. unfold Part000.parse.
    rewrite !part000_parseSingle_line by exact Hid. cbv zeta.
    unfold Part000.PROCESS_EXTENDED, Part000.PROCESS_HEX.
    destruct (dispatch_by_layout id_t) as [-> ->].
    cbn [append].
    rewrite (split_first "," t1 extra), (split_absent "," t1) by exact H1.
    destruct (split_nonempty "," extra) as (e & es & ->).
    destruct (layout_of id_t); [reflexivity|congruence|reflexivity].
  - intros t2 t3 t4 H2 H3 H4. unfold Part000.parse.
    rewrite !part000_parseSingle_line by exact Hid. cbv zeta.
    unfold Part000.PROCESS_EXTENDED, Part000.PROCESS_HEX.
    destruct (dispatch_by_layout id_t) as [-> ->].
    cbn [append].
    rewrite (split_first "," t1), (split_first "," t2), (split_first "," t3),
      (split_first "," t4 extra), (split_first "," t1), (split_first "," t2),
      (split_first "," t3), (split_absent "," t4) by assumption.
    destruct (split_nonempty "," extra) as (e & es & ->).
    destruct (layout_of id_t); reflexivity.
Qed.

Lemma part000_ignores_extra_tokens_witness :
  Part000.parse (VStr "77,1,2,3,4") = Part000.parse (VStr "77,1").
Proof.
  exact (proj1 (part000_ignores_extra_tokens "77" "1" "2,3,4" eq_refl eq_refl)
           ltac:(discriminate)).
Defined.

(** X5. In [usage_parser.js] a line whose ID selects the Hex or the Default
    layout and whose payload holds a comma is rejected: a payload with a
    comma is neither 24 hex digits nor a number. *)
Theorem usage_rejects_extra_tokens (id_t payload : string) :
  contains "," id_t = false -> layout_of id_t <> Extended ->
  contains "," payload = true ->
  UsageParser.parse (VStr (line id_t payload)) = Return [None].
Proof.
  intros Hid Hk Hc. apply usage_parse_text.
  destruct (layout_of id_t) eqn:K; [|congruence|].
  - rewrite usage_hex_outcome by assumption.
    now rewrite hex_not_with_comma.
  - rewrite usage_parseSingle_line, getFormatter_cases by exact Hid.
    destruct (dispatch_by_layout id_t) as [-> ->]. rewrite K.
    cbn [UsageParser.isValid UsageParser.DEFAULT]. unfold isNaN.
    cbn [ToNumber]. now rewrite StringToNumber_comma.
Qed.

Lemma usage_rejects_extra_tokens_witness :
  UsageParser.parse (VStr (line "77" "1,2,3,4")) = Return [None].
Proof.
  exact (usage_rejects_extra_tokens "77" "1,2,3,4" eq_refl
           ltac:(discriminate) eq_refl).
Defined.

(** X6. In [usage_parser.js] a line whose ID ends in ['4'] is rejected
    exactly when its payload does not hold three commas; the tokens between
    them may be anything, empty included. *)
Theorem extended_line_needs_three_commas (id_t payload : string) :
  contains "," id_t = false -> layout_of id_t = Extended ->
  (UsageParser.parse (VStr (line id_t payload)) = Return [None]
   <-> count_char "," payload <> 3%nat).
Proof.
  intros Hid Hk.
  assert (E : UsageParser.parseSingle (VStr (line id_t payload))
              = if (count_char "," payload =? 3)%nat
                then Return (Some (UsageParser.process UsageParser.EXTENDED
                                     id_t payload))
                else Return None).
  { rewrite usage_parseSingle_line, getFormatter_cases by exact Hid.
    destruct (dispatch_by_layout id_t) as [-> ->]. rewrite Hk.
    cbn [UsageParser.isValid UsageParser.EXTENDED]. rewrite split_length.
    destruct (count_char "," payload =? 3)%nat eqn:C.
    - apply Nat.eqb_eq in C. rewrite C. reflexivity.
    - apply Nat.eqb_neq in C.
      replace (Z.of_nat (S (count_char "," payload)) =? 4) with false
        by (symmetry; apply Z.eqb_neq; lia).
      reflexivity. }
  unfold UsageParser.parse. rewrite E.
  destruct (count_char "," payload =? 3)%nat eqn:C; cbn [bind].
  - apply Nat.eqb_eq in C. split; [discriminate|congruence].
  - apply Nat.eqb_neq in C. split; [intros _; exact C|reflexivity].
Qed.

Lemma extended_line_needs_three_commas_witness :
  UsageParser.parse (VStr (line "774" "310,12")) = Return [None].
Proof.
  apply (extended_line_needs_three_commas "774" "310,12" eq_refl eq_refl).
  discriminate.
Defined.

(** X7. [part_000] never rejects a line that has a comma and whose ID does
    not end in ['6']: it always builds a record, with the ID normalized as a
    number and no [ip], from whatever tokens there are. *)
Theorem part000_accepts_without_validation (id_t payload : string) :
  contains "," id_t = false -> layout_of id_t <> Hex ->
  exists r,
    Part000.parse (VStr (line id_t payload)) = Return [Some r] /\
    id r = normalized_number (VStr id_t) /\ ip r = VNull.
Proof.
  intros Hid Hk.
  assert (E : Part000.parseSingle (VStr (line id_t payload))
              = Return (Some (if (match layout_of id_t with
                                   | Extended => true | _ => false end)
                              then Part000.parseExtended
                                     (id_t :: split payload ",")
                              else Part000.parseBasic
                                     (id_t :: split payload ",")))).
  { rewrite part000_parseSingle_line by exact Hid. cbv zeta.
    unfold Part000.PROCESS_EXTENDED, Part000.PROCESS_HEX.
    destruct (dispatch_by_layout id_t) as [-> ->].
    destruct (layout_of id_t); [congruence|reflexivity|reflexivity]. }
  eexists. split; [apply part000_parse_text, E|].
  destruct (layout_of id_t); split; reflexivity.
Qed.

Lemma part000_accepts_without_validation_witness :
  exists r, Part000.parse (VStr (line "774" "310,12")) = Return [Some r] /\
            id r = normalized_number (VStr "774") /\ ip r = VNull.
Proof.
  apply (part000_accepts_without_validation "774" "310,12" eq_refl).
  discriminate.
Defined.

(** X8. Parsing a batch distributes over concatenation, in both variants:
    the result for [l1 ++ l2] is the result for [l1] followed by the result
    for [l2], and it throws when either part does, [l1] first. *)
Theorem parse_batch_append (l1 l2 : list value) :
  UsageParser.parse (VArr (l1 ++ l2))
  = bind (UsageParser.parse (VArr l1)) (fun out1 =>
      bind (UsageParser.parse (VArr l2)) (fun out2 =>
        Return (out1 ++ out2)%list)) /\
  Part000.parse (VArr (l1 ++ l2))
  = bind (Part000.parse (VArr l1)) (fun out1 =>
      bind (Part000.parse (VArr l2)) (fun out2 =>
        Return (out1 ++ out2)%list)).
Proof.
  split.
  - cbn [UsageParser.parse]. rewrite usage_forEach_push_app.
    destruct (UsageParser.forEach_push l1 []) as [out1|e]; cbn [bind];
      [|reflexivity].
    apply usage_forEach_push_acc.
  - cbn [Part000.parse]. rewrite part000_forEach_push_app.
    destruct (Part000.forEach_push l1 []) as [out1|e]; cbn [bind];
      [|reflexivity].
    apply part000_forEach_push_acc.
Qed.

(** X9. A batch returns normally exactly when every element, parsed alone
    by [#parseSingle], returns normally; the output then holds those
    results, one per element and in the order of the input. This holds for
    elements of any type, in both variants. *)
Theorem parse_batch_elementwise (elems : list value) (out : list slot) :
  (UsageParser.parse (VArr elems) = Return out
   <-> Forall2 (fun v r => UsageParser.parseSingle v = Return r) elems out) /\
  (Part000.parse (VArr elems) = Return out
   <-> Forall2 (fun v r => Part000.parseSingle v = Return r) elems out).
Proof.
  split; revert out; induction elems as [|v elems IH]; intros out;
    cbn [UsageParser.parse Part000.parse] in *.
  - cbn. split.
    + intros H. injection H as <-. constructor.
    + intros H. inversion H. reflexivity.
  - rewrite usage_batch_cons. split.
    + intros H. destruct (UsageParser.parseSingle v) as [r|e] eqn:R;
        cbn [bind] in H; [|discriminate].
      destruct (UsageParser.forEach_push elems []) as [o|e] eqn:F;
        cbn [bind] in H; [|discriminate].
      injection H as <-. constructor; [exact R|]. now apply IH.
    + intros H. inversion H as [|v' r l o Hr Ho]; subst.
      rewrite Hr. cbn [bind]. apply IH in Ho. rewrite Ho. reflexivity.
  - cbn. split.
    + intros H. injection H as <-. constructor.
    + intros H. inversion H. reflexivity.
  - rewrite part000_batch_cons. split.
    + intros H. destruct (Part000.parseSingle v) as [r|e] eqn:R;
        cbn [bind] in H; [|discriminate].
      destruct (Part000.forEach_push elems []) as [o|e] eqn:F;
        cbn [bind] in H; [|discriminate].
      injection H as <-. constructor; [exact R|]. now apply IH.
    + intros H. inversion H as [|v' r l o Hr Ho]; subst.
      rewrite Hr. cbn [bind]. apply IH in Ho. rewrite Ho. reflexivity.
Qed.


(** X10. When a batch throws, for a batch whose elements are [undefined],
    [null], booleans, Numbers, strings, or arrays of such values (the values
    of type [value]; other objects are not covered). In [usage_parser.js]:
    exactly when some element is neither a string nor an array free of the
    string [","] (such an array gets a [null] slot). In [part_000]: exactly
    when some element is not a string. *)
Theorem batch_throws_iff (elems : list value) :
  (UsageParser.parse (VArr elems) = Throw TypeError
   <-> forallb tolerated elems = false) /\
  (Part000.parse (VArr elems) = Throw TypeError
   <-> forallb is_text elems = false).
Proof.
  split; induction elems as [|v elems IH];
    cbn [UsageParser.parse Part000.parse forallb] in *.
  - cbn. split; discriminate.
  - rewrite usage_batch_cons.
    pose proof (usage_parseSingle_throws v) as T.
    destruct (UsageParser.parseSingle v) as [r|[]]; cbn [bind].
    + assert (Tv : tolerated v = true).
      { destruct (tolerated v); [reflexivity|]. destruct T as [_ T].
        specialize (T eq_refl). discriminate. }
      rewrite Tv. cbn [andb]. rewrite <- IH.
      destruct (UsageParser.forEach_push elems []) as [o|[]]; cbn [bind];
        split; congruence || discriminate.
    + destruct T as [T _]. rewrite (T eq_refl). now split.
  - cbn. split; discriminate.
  - rewrite part000_batch_cons.
    pose proof (part000_parseSingle_throws v) as T.
    destruct (Part000.parseSingle v) as [r|[]]; cbn [bind].
    + assert (Tv : is_text v = true).
      { destruct (is_text v); [reflexivity|]. destruct T as [_ T].
        specialize (T eq_refl). discriminate. }
      rewrite Tv. cbn [andb]. rewrite <- IH.
      destruct (Part000.forEach_push elems []) as [o|[]]; cbn [bind];
        split; congruence || discriminate.
    + destruct T as [T _]. rewrite (T eq_refl). now split.
Qed.

(** X11. Every record [parse] returns for a line is typed as its
    documentation says, in both variants: [id] is the ID normalized as a
    number; [mnc], [bytes_used] and [cellid] are Numbers other than NaN or
    [null]; [dmcc] is a string or [null], and a string only if the ID ends
    in ['4']; [ip] is a dotted quad of four octets in 0..255 or [null], and
    a quad only if the ID ends in ['6']. *)
Theorem parsed_record_well_typed (id_t payload : string) (r : UsageRecord) :
  contains "," id_t = false ->
  UsageParser.parse (VStr (line id_t payload)) = Return [Some r] \/
  Part000.parse (VStr (line id_t payload)) = Return [Some r] ->
  well_typed r /\ id r = normalized_number (VStr id_t) /\
  (dmcc r <> VNull -> layout_of id_t = Extended) /\
  (ip r <> VNull -> layout_of id_t = Hex).
Proof.
  intros Hid [H|H].
  - apply usage_parse_inv in H. now apply (usage_record_shape id_t payload).
  - apply part000_parse_inv in H. now apply (part000_record_shape id_t payload).
Qed.

Lemma parsed_record_well_typed_witness :
  well_typed record_123_500 /\
  id record_123_500 = normalized_number (VStr "123").
Proof.
  destruct (parsed_record_well_typed "123" "500" record_123_500 eq_refl
              (or_introl eq_refl)) as (T & I & _).
  split; assumption.
Defined.

(** X12. The ranges of a Hex record: [mnc] and [bytes_used] are integers in
    0..65535, [cellid] is an integer in 0..4294967295 and [ip] is a dotted
    quad of octets in 0..255, for every ID ending in ['6'] and every payload
    of 24 hex digits, in both variants. *)
Theorem hex_line_ranges (id_t payload : string) :
  contains "," id_t = false -> last_char id_t = Some "6"%char ->
  String.length payload = 24%nat -> all_chars lower_hex payload = true ->
  exists r m b c s,
    UsageParser.parse (VStr (line id_t payload)) = Return [Some r] /\
    Part000.parse (VStr (line id_t payload)) = Return [Some r] /\
    int_value (mnc r) = Some m /\ 0 <= m <= 65535 /\
    int_value (bytes_used r) = Some b /\ 0 <= b <= 65535 /\
    int_value (cellid r) = Some c /\ 0 <= c <= 4294967295 /\
    ip r = VStr s /\ dotted_quad s.
Proof.
  intros Hid Hlast Hl Hp.
  assert (Hk : layout_of id_t = Hex) by (now rewrite (layout_of_last id_t "6")).
  assert (Hlen : str_length payload = 24) by (unfold str_length; lia).
  pose proof (base16_slice_bound payload 0 4 Hp ltac:(lia) ltac:(lia)) as B1.
  pose proof (base16_slice_bound payload 4 8 Hp ltac:(lia) ltac:(lia)) as B2.
  pose proof (base16_slice_bound payload 8 16 Hp ltac:(lia) ltac:(lia)) as B3.
  pose proof (base16_slice_bound payload 16 18 Hp ltac:(lia) ltac:(lia)) as B4.
  pose proof (base16_slice_bound payload 18 20 Hp ltac:(lia) ltac:(lia)) as B5.
  pose proof (base16_slice_bound payload 20 22 Hp ltac:(lia) ltac:(lia)) as B6.
  pose proof (base16_slice_bound payload 22 24 Hp ltac:(lia) ltac:(lia)) as B7.
  change (16 ^ (4 - 0)) with 65536 in B1. change (16 ^ (8 - 4)) with 65536 in B2.
  change (16 ^ (16 - 8)) with 4294967296 in B3.
  change (16 ^ (18 - 16)) with 256 in B4. change (16 ^ (20 - 18)) with 256 in B5.
  change (16 ^ (22 - 20)) with 256 in B6. change (16 ^ (24 - 22)) with 256 in B7.
  assert (E53 : 2 ^ 53 = 9007199254740992) by reflexivity.
  exists (hex_fields (VStr id_t) payload),
    (base16 (code_units payload 0 4)), (base16 (code_units payload 4 8)),
    (base16 (code_units payload 8 16)),
    (quad (base16 (code_units payload 16 18)) (base16 (code_units payload 18 20))
          (base16 (code_units payload 20 22)) (base16 (code_units payload 22 24))).
  split; [now apply usage_parse_text, usage_hex_line|].
  split; [now apply part000_parse_text, part000_hex_line|].
  rewrite hex_fields_decode by assumption.
  cbn [mnc bytes_used cellid ip int_value].
  rewrite !num2Z_Z2num by lia.
  repeat split; try lia. now apply quad_dotted.
Qed.

Lemma hex_line_ranges_witness :
  exists r m b c s,
    UsageParser.parse (VStr (line "45546" "ffffffffffffffffffffffff"))
      = Return [Some r] /\
    int_value (mnc r) = Some m /\ 0 <= m <= 65535 /\
    int_value (bytes_used r) = Some b /\ 0 <= b <= 65535 /\
    int_value (cellid r) = Some c /\ 0 <= c <= 4294967295 /\
    ip r = VStr s /\ dotted_quad s.
Proof.
  destruct (hex_line_ranges "45546" "ffffffffffffffffffffffff"
              eq_refl eq_refl eq_refl eq_refl)
    as (r & m & b & c & s & H1 & _ & H).
  exists r, m, b, c, s. split; assumption.
Defined.

(** X13. What [#validateInput] answers for a string: the input is valid
    exactly when it holds a comma; the tokens are the comma-separated parts
    in either case; the format of a valid input is the last character of
    its first token, empty when that token is empty. *)
Theorem validateInput_text (text : string) :
  Part000.validateInput (VStr text)
  = Return {| Part000.isValid := contains "," text;
              Part000.format :=
                if contains "," text
                then match last_char (first_token text) with
                     | Some c => String c EmptyString
                     | None => EmptyString
                     end
                else EmptyString;
              Part000.tokens := Some (split text ",") |}.
Proof.
  unfold Part000.validateInput. rewrite guard_never_fires.
  rewrite split_length. unfold first_token.
  destruct (contains "," text) eqn:C.
  - assert (N : count_char "," text <> O).
    { intros N. apply count_char_zero in N. congruence. }
    replace (Z.of_nat (S (count_char "," text)) <? 2) with false
      by (symmetry; apply Z.ltb_ge; lia).
    destruct (split_nonempty "," text) as (t & ts & ->).
    cbn [element nth_error nth]. now rewrite slice_last.
  - apply count_char_zero in C. rewrite C. reflexivity.
Qed.

(** X14. Whatever [usage_parser.js] parses to a record, [part_000] parses
    to the same record: the lines on which the two variants differ are
    lines that [usage_parser.js] rejects. *)
Theorem usage_record_is_part000_record (text : string) (r : UsageRecord) :
  UsageParser.parse (VStr text) = Return [Some r] ->
  Part000.parse (VStr text) = Return [Some r].
Proof.
  intros H. apply usage_parse_inv in H. apply part000_parse_text.
  destruct (contains "," text) eqn:C.
  2:{ rewrite usage_parseSingle_no_comma in H by exact C. discriminate. }
  destruct (first_sep "," text C) as (id_t & payload & -> & Hid).
  change (id_t ++ String "," payload) with (line id_t payload) in *.
  rewrite <- H. symmetry. apply parseSingle_agree.
  exists id_t, payload. repeat split; [exact Hid|].
  rewrite usage_parseSingle_line, getFormatter_cases in H by exact Hid.
  destruct (dispatch_by_layout id_t) as [E6 E4]. rewrite E6, E4 in H.
  destruct (layout_of id_t) eqn:K.
  - cbn [UsageParser.isValid UsageParser.HEX] in H.
    rewrite hex_pattern_exact in H.
    now destruct (well_formed_payload Hex payload).
  - cbn [UsageParser.isValid UsageParser.EXTENDED] in H.
    cbn [well_formed_payload].
    destruct (Z.of_nat (List.length (split payload ",")) =? 4) eqn:L;
      [|discriminate].
    apply Z.eqb_eq in L. apply Nat.eqb_eq. lia.
  - cbn [UsageParser.isValid UsageParser.DEFAULT] in H.
    unfold isNaN in H. cbn [ToNumber] in H. cbn [well_formed_payload].
    destruct (is_nan (StringToNumber payload)) eqn:N; [discriminate|].
    destruct (contains "," payload) eqn:Cp; [|reflexivity].
    rewrite StringToNumber_comma in N by exact Cp. discriminate.
Qed.

Lemma usage_record_is_part000_record_witness :
  Part000.parse (VStr "123,500") = Return [Some record_123_500].
Proof.
  exact (usage_record_is_part000_record "123,500" record_123_500 eq_refl).
Defined.

(** X15. A payload that is empty or all white space is not rejected: a line
    such as ["123,"], whose ID selects the Default layout, parses in both
    variants to a record with [bytes_used] 0. *)
Theorem blank_payload_is_zero (id_t payload : string) :
  contains "," id_t = false -> layout_of id_t = Default ->
  all_chars is_white payload = true ->
  exists r,
    UsageParser.parse (VStr (line id_t payload)) = Return [Some r] /\
    Part000.parse (VStr (line id_t payload)) = Return [Some r] /\
    id r = normalized_number (VStr id_t) /\
    bytes_used r = VNum pos_zero /\
    mnc r = VNull /\ dmcc r = VNull /\ cellid r = VNull /\ ip r = VNull.
Proof.
  intros Hid Hk Hw.
  pose proof (StringToNumber_white payload Hw) as N.
  exists (formatOutput (VStr id_t) VUndefined (VStr payload) VUndefined
            VUndefined VUndefined).
  split; [|split].
  - apply usage_parse_text, usage_default_line; try assumption.
    now rewrite N.
  - apply part000_parse_text, part000_default_line; try assumption.
    now apply white_no_comma.
  - unfold formatOutput, isNaN, Number.
    cbn [id mnc bytes_used dmcc cellid ip ToNumber]. rewrite N.
    repeat split.
Qed.

Lemma blank_payload_is_zero_witness :
  exists r,
    UsageParser.parse (VStr (line "123" EmptyString)) = Return [Some r] /\
    bytes_used r = VNum pos_zero.
Proof.
  destruct (blank_payload_is_zero "123" EmptyString eq_refl eq_refl eq_refl)
    as (r & H1 & _ & _ & H2 & _).
  exists r. split; assumption.
Defined.
